(** * The live voice session hook (src/hooks/useLiveSession.ts)

    A shallow embedding of the [useLiveSession] hook: the React state and
    the refs of the hook form one record, every callback of the hook is a
    computation over that record, and the browser and the Gemini Live
    transport appear as the events that trigger the callbacks and as the
    log of calls the callbacks make on them.

    Conventions:
    - Objects created by the hook (audio contexts, buffer source nodes,
      animation-frame handles) are named by numbers taken from a counter;
      a live session is named by the index of its [sessionPromise].
    - Times are device-clock readings counted in sample frames of the
      24 kHz output context ([new AudioContextClass({ sampleRate: 24000 })]),
      so an n-sample buffer has duration n; rounding of the underlying
      doubles is not modelled.
    - The level meter values ([volume], the analysers) are not modelled. *)

From Stdlib Require Import ZArith Lia.
From stdpp Require Import base list strings.

Local Open Scope Z_scope.

(** ** Data *)

(** [export type VoiceState = 'idle' | 'listening' | 'thinking' | 'speaking'] *)
Inductive VoiceState := idle | listening | thinking | speaking.

(** An [AudioBufferSourceNode] after [source.start(startTime)]: its identity,
    the start time it was given and the duration of its buffer. *)
Record Source := mkSource { src_id : nat; src_start : Z; src_duration : Z }.

Definition src_end (x : Source) : Z := src_start x + src_duration x.

(** A callback chained on a [sessionPromise] with [.then], besides the one
    that installs the session: [s => s.close()] of [onopen] and the
    [sendToolResponse] of the tool-call loop. *)
Inductive Reaction :=
| RClose
| RSendToolResponse (id name : string).

Inductive Promise :=
| Pending (reactions : list Reaction)
| Fulfilled
| Rejected.

(** One entry of [msg.toolCall.functionCalls]; [fc_args] is the [args]
    object as a list of its keys and values. *)
Record FunctionCall := mkFunctionCall
  { fc_id : string; fc_name : string; fc_args : list (string * string) }.

(** The parts of a [LiveServerMessage] the hook reads.  [audioData] is
    [msg.serverContent?.modelTurn?.parts?.[0]?.inlineData?.data] when it is
    truthy, given as the char codes of the binary string [atob] returns for
    it; [None] stands for a missing or empty payload. *)
Record Message := mkMessage
  { turnComplete : bool;
    audioData : option (list Z);
    toolCall : option (list FunctionCall) }.

(** How a call of the caller-supplied [onCommand] ends. *)
Inductive Completion := Returns | Throws.

Inductive Timer := WarmUp | Retry | Reattempt.

(** Calls the hook makes on the browser, the transport and its caller. *)
Inductive Effect :=
| ESessionClose (h : nat)
| EContextCreate (c : nat)
| EContextClose (c : nat)
| EGetUserMedia (c : nat)
| ETracksStop (c : nat)
| ENodeDisconnect (c : nat)
| ECancelAnimationFrame (f : nat)
| ELiveConnect (h : nat)
| ESourceStart (x : Source)
| ESourceStop (x : Source)
| ECommand (desc : option string)
| ESendToolResponse (h : nat) (id name response : string)
| ESendRealtimeInput (h : nat)
| ESetTimeout (t : Timer) (ms : nat).

#[global] Instance VoiceState_eq_dec : EqDecision VoiceState.
Proof. solve_decision. Defined.
#[global] Instance Source_eq_dec : EqDecision Source.
Proof. solve_decision. Defined.
#[global] Instance Reaction_eq_dec : EqDecision Reaction.
Proof. solve_decision. Defined.
#[global] Instance Timer_eq_dec : EqDecision Timer.
Proof. solve_decision. Defined.
#[global] Instance Effect_eq_dec : EqDecision Effect.
Proof. solve_decision. Defined.

(** ** The state of the hook

    [useState] cells first, then the refs in the order the hook declares
    them, then the promises of the sessions opened so far and the counter
    that names new objects.  [isMutedRef] mirrors [isMuted] and is the same
    field here. *)
Record State := mkState
  { isConnected : bool;
    voiceState : VoiceState;
    isMuted : bool;
    error : option string;
    isReady : bool;
    shouldBeConnected : bool;
    activeSession : option nat;
    retryCount : nat;
    audioContext : option nat;
    mediaStream : option nat;
    processor : option nat;
    inputSource : option nat;
    audioQueue : list Source;
    nextStartTime : Z;
    isPlaying : bool;
    rafId : option nat;
    promises : list Promise;
    nextId : nat }.

Definition initial : State :=
  {| isConnected := false; voiceState := idle; isMuted := false;
     error := None; isReady := false; shouldBeConnected := false;
     activeSession := None; retryCount := 0; audioContext := None;
     mediaStream := None; processor := None; inputSource := None;
     audioQueue := []; nextStartTime := 0; isPlaying := false;
     rafId := None; promises := []; nextId := 0 |}.

Definition set_isConnected (v : bool) (s : State) : State :=
  {| isConnected := v; voiceState := voiceState s; isMuted := isMuted s;
     error := error s; isReady := isReady s;
     shouldBeConnected := shouldBeConnected s;
     activeSession := activeSession s; retryCount := retryCount s;
     audioContext := audioContext s; mediaStream := mediaStream s;
     processor := processor s; inputSource := inputSource s;
     audioQueue := audioQueue s; nextStartTime := nextStartTime s;
     isPlaying := isPlaying s; rafId := rafId s; promises := promises s;
     nextId := nextId s |}.

Definition set_voiceState (v : VoiceState) (s : State) : State :=
  {| isConnected := isConnected s; voiceState := v; isMuted := isMuted s;
     error := error s; isReady := isReady s;
     shouldBeConnected := shouldBeConnected s;
     activeSession := activeSession s; retryCount := retryCount s;
     audioContext := audioContext s; mediaStream := mediaStream s;
     processor := processor s; inputSource := inputSource s;
     audioQueue := audioQueue s; nextStartTime := nextStartTime s;
     isPlaying := isPlaying s; rafId := rafId s; promises := promises s;
     nextId := nextId s |}.

Definition set_isMuted (v : bool) (s : State) : State :=
  {| isConnected := isConnected s; voiceState := voiceState s; isMuted := v;
     error := error s; isReady := isReady s;
     shouldBeConnected := shouldBeConnected s;
     activeSession := activeSession s; retryCount := retryCount s;
     audioContext := audioContext s; mediaStream := mediaStream s;
     processor := processor s; inputSource := inputSource s;
     audioQueue := audioQueue s; nextStartTime := nextStartTime s;
     isPlaying := isPlaying s; rafId := rafId s; promises := promises s;
     nextId := nextId s |}.

Definition set_error (v : option string) (s : State) : State :=
  {| isConnected := isConnected s; voiceState := voiceState s;
     isMuted := isMuted s; error := v; isReady := isReady s;
     shouldBeConnected := shouldBeConnected s;
     activeSession := activeSession s; retryCount := retryCount s;
     audioContext := audioContext s; mediaStream := mediaStream s;
     processor := processor s; inputSource := inputSource s;
     audioQueue := audioQueue s; nextStartTime := nextStartTime s;
     isPlaying := isPlaying s; rafId := rafId s; promises := promises s;
     nextId := nextId s |}.

Definition set_isReady (v : bool) (s : State) : State :=
  {| isConnected := isConnected s; voiceState := voiceState s;
     isMuted := isMuted s; error := error s; isReady := v;
     shouldBeConnected := shouldBeConnected s;
     activeSession := activeSession s; retryCount := retryCount s;
     audioContext := audioContext s; mediaStream := mediaStream s;
     processor := processor s; inputSource := inputSource s;
     audioQueue := audioQueue s; nextStartTime := nextStartTime s;
     isPlaying := isPlaying s; rafId := rafId s; promises := promises s;
     nextId := nextId s |}.

Definition set_shouldBeConnected (v : bool) (s : State) : State :=
  {| isConnected := isConnected s; voiceState := voiceState s;
     isMuted := isMuted s; error := error s; isReady := isReady s;
     shouldBeConnected := v; activeSession := activeSession s;
     retryCount := retryCount s; audioContext := audioContext s;
     mediaStream := mediaStream s; processor := processor s;
     inputSource := inputSource s; audioQueue := audioQueue s;
     nextStartTime := nextStartTime s; isPlaying := isPlaying s;
     rafId := rafId s; promises := promises s; nextId := nextId s |}.

Definition set_activeSession (v : option nat) (s : State) : State :=
  {| isConnected := isConnected s; voiceState := voiceState s;
     isMuted := isMuted s; error := error s; isReady := isReady s;
     shouldBeConnected := shouldBeConnected s; activeSession := v;
     retryCount := retryCount s; audioContext := audioContext s;
     mediaStream := mediaStream s; processor := processor s;
     inputSource := inputSource s; audioQueue := audioQueue s;
     nextStartTime := nextStartTime s; isPlaying := isPlaying s;
     rafId := rafId s; promises := promises s; nextId := nextId s |}.

Definition set_retryCount (v : nat) (s : State) : State :=
  {| isConnected := isConnected s; voiceState := voiceState s;
     isMuted := isMuted s; error := error s; isReady := isReady s;
     shouldBeConnected := shouldBeConnected s;
     activeSession := activeSession s; retryCount := v;
     audioContext := audioContext s; mediaStream := mediaStream s;
     processor := processor s; inputSource := inputSource s;
     audioQueue := audioQueue s; nextStartTime := nextStartTime s;
     isPlaying := isPlaying s; rafId := rafId s; promises := promises s;
     nextId := nextId s |}.

Definition set_audioContext (v : option nat) (s : State) : State :=
  {| isConnected := isConnected s; voiceState := voiceState s;
     isMuted := isMuted s; error := error s; isReady := isReady s;
     shouldBeConnected := shouldBeConnected s;
     activeSession := activeSession s; retryCount := retryCount s;
     audioContext := v; mediaStream := mediaStream s;
     processor := processor s; inputSource := inputSource s;
     audioQueue := audioQueue s; nextStartTime := nextStartTime s;
     isPlaying := isPlaying s; rafId := rafId s; promises := promises s;
     nextId := nextId s |}.

Definition set_mediaStream (v : option nat) (s : State) : State :=
  {| isConnected := isConnected s; voiceState := voiceState s;
     isMuted := isMuted s; error := error s; isReady := isReady s;
     shouldBeConnected := shouldBeConnected s;
     activeSession := activeSession s; retryCount := retryCount s;
     audioContext := audioContext s; mediaStream := v;
     processor := processor s; inputSource := inputSource s;
     audioQueue := audioQueue s; nextStartTime := nextStartTime s;
     isPlaying := isPlaying s; rafId := rafId s; promises := promises s;
     nextId := nextId s |}.

Definition set_processor (v : option nat) (s : State) : State :=
  {| isConnected := isConnected s; voiceState := voiceState s;
     isMuted := isMuted s; error := error s; isReady := isReady s;
     shouldBeConnected := shouldBeConnected s;
     activeSession := activeSession s; retryCount := retryCount s;
     audioContext := audioContext s; mediaStream := mediaStream s;
     processor := v; inputSource := inputSource s;
     audioQueue := audioQueue s; nextStartTime := nextStartTime s;
     isPlaying := isPlaying s; rafId := rafId s; promises := promises s;
     nextId := nextId s |}.

Definition set_inputSource (v : option nat) (s : State) : State :=
  {| isConnected := isConnected s; voiceState := voiceState s;
     isMuted := isMuted s; error := error s; isReady := isReady s;
     shouldBeConnected := shouldBeConnected s;
     activeSession := activeSession s; retryCount := retryCount s;
     audioContext := audioContext s; mediaStream := mediaStream s;
     processor := processor s; inputSource := v; audioQueue := audioQueue s;
     nextStartTime := nextStartTime s; isPlaying := isPlaying s;
     rafId := rafId s; promises := promises s; nextId := nextId s |}.

Definition set_audioQueue (v : list Source) (s : State) : State :=
  {| isConnected := isConnected s; voiceState := voiceState s;
     isMuted := isMuted s; error := error s; isReady := isReady s;
     shouldBeConnected := shouldBeConnected s;
     activeSession := activeSession s; retryCount := retryCount s;
     audioContext := audioContext s; mediaStream := mediaStream s;
     processor := processor s; inputSource := inputSource s; audioQueue := v;
     nextStartTime := nextStartTime s; isPlaying := isPlaying s;
     rafId := rafId s; promises := promises s; nextId := nextId s |}.

Definition set_nextStartTime (v : Z) (s : State) : State :=
  {| isConnected := isConnected s; voiceState := voiceState s;
     isMuted := isMuted s; error := error s; isReady := isReady s;
     shouldBeConnected := shouldBeConnected s;
     activeSession := activeSession s; retryCount := retryCount s;
     audioContext := audioContext s; mediaStream := mediaStream s;
     processor := processor s; inputSource := inputSource s;
     audioQueue := audioQueue s; nextStartTime := v;
     isPlaying := isPlaying s; rafId := rafId s; promises := promises s;
     nextId := nextId s |}.

Definition set_isPlaying (v : bool) (s : State) : State :=
  {| isConnected := isConnected s; voiceState := voiceState s;
     isMuted := isMuted s; error := error s; isReady := isReady s;
     shouldBeConnected := shouldBeConnected s;
     activeSession := activeSession s; retryCount := retryCount s;
     audioContext := audioContext s; mediaStream := mediaStream s;
     processor := processor s; inputSource := inputSource s;
     audioQueue := audioQueue s; nextStartTime := nextStartTime s;
     isPlaying := v; rafId := rafId s; promises := promises s;
     nextId := nextId s |}.

Definition set_rafId (v : option nat) (s : State) : State :=
  {| isConnected := isConnected s; voiceState := voiceState s;
     isMuted := isMuted s; error := error s; isReady := isReady s;
     shouldBeConnected := shouldBeConnected s;
     activeSession := activeSession s; retryCount := retryCount s;
     audioContext := audioContext s; mediaStream := mediaStream s;
     processor := processor s; inputSource := inputSource s;
     audioQueue := audioQueue s; nextStartTime := nextStartTime s;
     isPlaying := isPlaying s; rafId := v; promises := promises s;
     nextId := nextId s |}.

Definition set_promises (v : list Promise) (s : State) : State :=
  {| isConnected := isConnected s; voiceState := voiceState s;
     isMuted := isMuted s; error := error s; isReady := isReady s;
     shouldBeConnected := shouldBeConnected s;
     activeSession := activeSession s; retryCount := retryCount s;
     audioContext := audioContext s; mediaStream := mediaStream s;
     processor := processor s; inputSource := inputSource s;
     audioQueue := audioQueue s; nextStartTime := nextStartTime s;
     isPlaying := isPlaying s; rafId := rafId s; promises := v;
     nextId := nextId s |}.

Definition set_nextId (v : nat) (s : State) : State :=
  {| isConnected := isConnected s; voiceState := voiceState s;
     isMuted := isMuted s; error := error s; isReady := isReady s;
     shouldBeConnected := shouldBeConnected s;
     activeSession := activeSession s; retryCount := retryCount s;
     audioContext := audioContext s; mediaStream := mediaStream s;
     processor := processor s; inputSource := inputSource s;
     audioQueue := audioQueue s; nextStartTime := nextStartTime s;
     isPlaying := isPlaying s; rafId := rafId s; promises := promises s;
     nextId := v |}.


(** ** Callbacks as computations

    A callback runs on the state, may call out (the log) and may end by an
    exception ([None]); what it did before the exception stays done. *)
Record Res (A : Type) := mkRes
  { res_val : option A; res_st : State; res_log : list Effect }.
Arguments mkRes {A} _ _ _.
Arguments res_val {A} _.
Arguments res_st {A} _.
Arguments res_log {A} _.

Definition M (A : Type) : Type := State → Res A.

#[global] Instance M_ret : MRet M := λ A a s, mkRes (Some a) s [].

#[global] Instance M_bind : MBind M := λ A B f m s,
  match m s with
  | mkRes None s1 l1 => mkRes None s1 l1
  | mkRes (Some a) s1 l1 =>
      match f a s1 with
      | mkRes v s2 l2 => mkRes v s2 (l1 ++ l2)
      end
  end.

Definition throw {A} : M A := λ s, mkRes None s [].
Definition get : M State := λ s, mkRes (Some s) s [].
Definition modify (f : State → State) : M unit := λ s, mkRes (Some tt) (f s) [].
Definition emit (e : Effect) : M unit := λ s, mkRes (Some tt) s [e].
Definition skip : M unit := mret tt.

(** [for (const x of xs) body(x)] *)
Fixpoint for_each {A} (body : A → M unit) (xs : list A) : M unit :=
  match xs with
  | [] => skip
  | x :: xs' => body x;; for_each body xs'
  end.

(** [const idx = queue.indexOf(source); if (idx > -1) queue.splice(idx, 1)] *)
Fixpoint remove_first (x : Source) (q : list Source) : list Source :=
  match q with
  | [] => []
  | y :: q' => if decide (y = x) then q' else y :: remove_first x q'
  end.

(** [fc.args['system_description']] *)
Fixpoint args_lookup (k : string) (args : list (string * string)) : option string :=
  match args with
  | [] => None
  | (k', v) :: args' => if decide (k' = k) then Some v else args_lookup k args'
  end.

(** The literal 3 of lines 321 and 353. *)
Definition MAX_RETRIES : nat := 3.

(** ** The hook *)

(** Lines 61-119. The closed state of the audio context is not tracked:
    [close()] is logged whenever the ref holds a context. *)
Definition disconnect : M unit :=
  modify (set_shouldBeConnected false);;
  modify (set_isReady false);;
  s ← get;
  match activeSession s with
  | Some h => emit (ESessionClose h);; modify (set_activeSession None)
  | None => skip
  end;;
  modify (set_isConnected false);;
  modify (set_voiceState idle);;
  match rafId s with
  | Some f => emit (ECancelAnimationFrame f);; modify (set_rafId None)
  | None => skip
  end;;
  match processor s with
  | Some c => emit (ENodeDisconnect c);; modify (set_processor None)
  | None => skip
  end;;
  match inputSource s with
  | Some c => emit (ENodeDisconnect c);; modify (set_inputSource None)
  | None => skip
  end;;
  match mediaStream s with
  | Some c => emit (ETracksStop c);; modify (set_mediaStream None)
  | None => skip
  end;;
  match audioContext s with
  | Some c => emit (EContextClose c);; modify (set_audioContext None)
  | None => skip
  end;;
  for_each (λ x, emit (ESourceStop x)) (audioQueue s);;
  modify (set_audioQueue []);;
  modify (set_isPlaying false);;
  modify (set_nextStartTime 0).

(** Lines 396-423, without the level computation. A handle returned by
    [requestAnimationFrame] is never zero, so [Some f] is a truthy ref. *)
Definition updateVolume : M unit :=
  s ← get;
  match audioContext s with
  | None => skip
  | Some _ =>
      modify (set_nextId (S (nextId s)));;
      modify (set_rafId (Some (nextId s)))
  end.

(** Lines 131-170: [attemptConnection] up to the point where it awaits the
    microphone. *)
Definition attemptConnection : M unit :=
  s ← get;
  if negb (shouldBeConnected s) then skip
  else
    let c := nextId s in
    modify (set_nextId (S c));;
    emit (EContextCreate c);;
    modify (set_audioContext (Some c));;
    emit (EGetUserMedia c).

(** Lines 172-198 and 363-423: [attemptConnection] of context [c] after
    [getUserMedia] has resolved. *)
Definition attemptConnection_resume (c : nat) : M unit :=
  s ← get;
  if negb (shouldBeConnected s) then
    emit (ETracksStop c);; emit (EContextClose c)
  else
    modify (set_mediaStream (Some c));;
    modify (set_inputSource (Some c));;
    modify (set_processor (Some c));;
    let h := length (promises s) in
    modify (set_promises (promises s ++ [Pending []]));;
    emit (ELiveConnect h);;
    updateVolume.

(** Lines 425-431: the [catch] of [attemptConnection]. *)
Definition attemptConnection_catch : M unit :=
  s ← get;
  if shouldBeConnected s then
    modify (set_error (Some "System Malfunction"%string));;
    disconnect
  else skip.

(** Lines 121-129 and 434. *)
Definition connect : M unit :=
  s ← get;
  if shouldBeConnected s then skip
  else
    modify (set_error None);;
    modify (set_isMuted false);;
    modify (set_shouldBeConnected true);;
    modify (set_retryCount 0%nat);;
    attemptConnection.

Definition toggleMute : M unit :=
  modify (λ s, set_isMuted (negb (isMuted s)) s).

(** What a chained callback calls once session [h] is there. *)
Definition reaction_call (h : nat) (r : Reaction) : Effect :=
  match r with
  | RClose => ESessionClose h
  | RSendToolResponse id name =>
      ESendToolResponse h id name "ok, system generation started"
  end.

Definition run_reaction (h : nat) (r : Reaction) : M unit :=
  emit (reaction_call h r).

(** [sessionPromise.then(r)] for the promise of session [h]: the callback
    waits while the promise is pending, runs at once (as a microtask, logged
    here) when it is fulfilled and never runs when it is rejected. *)
Definition promise_then (h : nat) (r : Reaction) : M unit :=
  s ← get;
  match promises s !! h with
  | Some (Pending rs) =>
      modify (set_promises (<[h := Pending (rs ++ [r])]> (promises s)))
  | Some Fulfilled => run_reaction h r
  | Some Rejected | None => skip
  end.

(** Lines 223-241. *)
Definition onopen (h : nat) : M unit :=
  s ← get;
  if negb (shouldBeConnected s) then promise_then h RClose
  else
    modify (set_isConnected true);;
    modify (set_voiceState listening);;
    emit (ESetTimeout WarmUp 500).

(** Lines 236-240: the warm-up timer fires. *)
Definition warmup_timeout : M unit :=
  s ← get;
  if shouldBeConnected s then modify (set_isReady true) else skip.

(** Lines 277-285: [source.onended] of node [x], the clock reading [now]. *)
Definition source_onended (x : Source) (now : Z) : M unit :=
  modify (λ s, set_audioQueue (remove_first x (audioQueue s)) s);;
  s ← get;
  match audioQueue s with
  | [] =>
      modify (set_isPlaying false);;
      modify (set_voiceState listening);;
      modify (set_nextStartTime now)
  | _ :: _ => skip
  end.

(** Lines 252-285: an audio payload of [bytes] arrives at clock [now].
    [new Int16Array(bytes.buffer)] throws on an odd byte length and
    [createBuffer] on a length of zero frames. *)
Definition schedule_audio (bytes : list Z) (now : Z) : M unit :=
  modify (set_voiceState speaking);;
  modify (set_isPlaying true);;
  let len := length bytes in
  if negb (Nat.even len) then throw
  else
    let frames := (len / 2)%nat in
    if (frames =? 0)%nat then throw
    else
      s ← get;
      let startTime := Z.max now (nextStartTime s) in
      let source := mkSource (nextId s) startTime (Z.of_nat frames) in
      modify (set_nextId (S (nextId s)));;
      emit (ESourceStart source);;
      modify (set_nextStartTime (startTime + src_duration source));;
      modify (set_audioQueue (audioQueue s ++ [source])).

(** Lines 309-315. *)
Definition onclose : M unit :=
  s ← get;
  if shouldBeConnected s then disconnect else skip.

(** Lines 316-337. *)
Definition onerror : M unit :=
  s ← get;
  if shouldBeConnected s then
    if (retryCount s <? MAX_RETRIES)%nat then
      modify (set_retryCount (retryCount s + 1)%nat);;
      modify (set_isReady false);;
      emit (ESetTimeout Retry 1000)
    else
      modify (set_error (Some "System Unreachable"%string));;
      disconnect
  else skip.

(** Lines 327-331: the timer set by [onerror] fires. *)
Definition retry_timeout : M unit :=
  disconnect;;
  modify (set_shouldBeConnected true);;
  attemptConnection.

(** Lines 342-348. *)
Definition sessionPromise_then (h : nat) : M unit :=
  s ← get;
  if shouldBeConnected s then modify (set_activeSession (Some h))
  else emit (ESessionClose h).

(** Lines 349-361, for a rejected promise; an exception thrown by the
    installing callback itself is not modelled. *)
Definition sessionPromise_catch : M unit :=
  s ← get;
  if shouldBeConnected s then
    if (retryCount s <? MAX_RETRIES)%nat then
      modify (set_retryCount (retryCount s + 1)%nat);;
      emit (ESetTimeout Reattempt 1000)
    else
      modify (set_error (Some "Connection Failed"%string));;
      disconnect
  else skip.

(** The promise of session [h] is fulfilled: the installing callback runs
    first, then the callbacks chained later, in order. *)
Definition sessionPromise_resolve (h : nat) : M unit :=
  s ← get;
  match promises s !! h with
  | Some (Pending rs) =>
      modify (set_promises (<[h := Fulfilled]> (promises s)));;
      sessionPromise_then h;;
      for_each (run_reaction h) rs
  | _ => skip
  end.

(** The promise of session [h] is rejected. *)
Definition sessionPromise_reject (h : nat) : M unit :=
  s ← get;
  match promises s !! h with
  | Some (Pending _) =>
      modify (set_promises (<[h := Rejected]> (promises s)));;
      sessionPromise_catch
  | _ => skip
  end.

(** Lines 364-393, without the encoding of the block. *)
Definition onaudioprocess : M unit :=
  s ← get;
  if isMuted s || negb (isReady s) || negb (shouldBeConnected s) then skip
  else
    match activeSession s with
    | Some h => emit (ESendRealtimeInput h)
    | None => skip
    end.

Section Hook.

(** The argument of [useLiveSession]. *)
Variable onCommand : option (option string → Completion).

(** Lines 291-305: the body of the loop over the function calls of a
    message of session [h]. *)
Definition handle_functionCall (h : nat) (fc : FunctionCall) : M unit :=
  if decide (fc_name fc = "generate_system"%string) then
    let desc := args_lookup "system_description" (fc_args fc) in
    match onCommand with
    | Some f =>
        emit (ECommand desc);;
        match f desc with Returns => skip | Throws => throw end
    | None => skip
    end;;
    promise_then h (RSendToolResponse (fc_id fc) (fc_name fc))
  else skip.

(** Lines 242-308. *)
Definition onmessage (h : nat) (now : Z) (msg : Message) : M unit :=
  s ← get;
  if negb (shouldBeConnected s) then skip
  else
    (if turnComplete msg then
       s ← get;
       if negb (isPlaying s) then modify (set_voiceState listening) else skip
     else skip);;
    match audioData msg with
    | Some bytes => schedule_audio bytes now
    | None => skip
    end;;
    match toolCall msg with
    | Some calls => for_each (handle_functionCall h) calls
    | None => skip
    end.

(** ** Events

    What the user, the browser and the transport do to the hook. Clock
    readings ([audioCtx.currentTime]) come with the event that reads them. *)
Inductive Event :=
| EvConnect
| EvDisconnect
| EvToggleMute
| EvMediaGranted (c : nat)
| EvInitFailed
| EvOpen (h : nat)
| EvMessage (h : nat) (now : Z) (msg : Message)
| EvClose (h : nat)
| EvError (h : nat)
| EvResolved (h : nat)
| EvRejected (h : nat)
| EvWarmUp
| EvRetry
| EvReattempt
| EvEnded (x : Source) (now : Z)
| EvAudioProcess
| EvAnimationFrame.

Definition handler (e : Event) : M unit :=
  match e with
  | EvConnect => connect
  | EvDisconnect => disconnect
  | EvToggleMute => toggleMute
  | EvMediaGranted c => attemptConnection_resume c
  | EvInitFailed => attemptConnection_catch
  | EvOpen h => onopen h
  | EvMessage h now msg => onmessage h now msg
  | EvClose _ => onclose
  | EvError _ => onerror
  | EvResolved h => sessionPromise_resolve h
  | EvRejected h => sessionPromise_reject h
  | EvWarmUp => warmup_timeout
  | EvRetry => retry_timeout
  | EvReattempt => attemptConnection
  | EvEnded x now => source_onended x now
  | EvAudioProcess => onaudioprocess
  | EvAnimationFrame => updateVolume
  end.

Definition step (s : State) (e : Event) : State := res_st (handler e s).
Definition calls (s : State) (e : Event) : list Effect := res_log (handler e s).

(** The state after a sequence of events, and everything called on the way. *)
Fixpoint run (s : State) (es : list Event) : State :=
  match es with
  | [] => s
  | e :: es' => run (step s e) es'
  end.

Fixpoint run_calls (s : State) (es : list Event) : list Effect :=
  match es with
  | [] => []
  | e :: es' => calls s e ++ run_calls (step s e) es'
  end.

End Hook.

(** ** Notions used by the statements *)

(** The state [disconnect] leaves: only the mute flag, the last error, the
    retry count, the promises and the name counter survive. *)
Definition torn_state (s : State) : State :=
  {| isConnected := false; voiceState := idle; isMuted := isMuted s;
     error := error s; isReady := false; shouldBeConnected := false;
     activeSession := None; retryCount := retryCount s; audioContext := None;
     mediaStream := None; processor := None; inputSource := None;
     audioQueue := []; nextStartTime := 0; isPlaying := false;
     rafId := None; promises := promises s; nextId := nextId s |}.

(** What releasing a resource held in a ref logs. *)
Definition release {A} (f : A → Effect) (r : option A) : list Effect :=
  match r with Some a => [f a] | None => [] end.

(** The calls [disconnect] makes, in order. *)
Definition teardown_calls (s : State) : list Effect :=
  release ESessionClose (activeSession s)
  ++ release ECancelAnimationFrame (rafId s)
  ++ release ENodeDisconnect (processor s)
  ++ release ENodeDisconnect (inputSource s)
  ++ release ETracksStop (mediaStream s)
  ++ release EContextClose (audioContext s)
  ++ map ESourceStop (audioQueue s).

(** Full teardown, as a property of a state. *)
Definition torn_down (s : State) : Prop :=
  shouldBeConnected s = false ∧ isReady s = false ∧ activeSession s = None
  ∧ isConnected s = false ∧ voiceState s = idle ∧ rafId s = None
  ∧ processor s = None ∧ inputSource s = None ∧ mediaStream s = None
  ∧ audioContext s = None ∧ audioQueue s = [] ∧ isPlaying s = false
  ∧ nextStartTime s = 0.

(** *** Frames *)

(** [pres R m]: running [m] takes every state to an [R]-related one, also
    when [m] ends by an exception. *)
Definition pres (R : relation State) {A} (m : M A) : Prop :=
  ∀ s, R s (res_st (m s)).

(** [keeps f]: the field [f] is left as it was. *)
Definition keeps {A} (f : State → A) : relation State := λ s s', f s' = f s.

(** *** Retries *)

(** A connect whose first three attempts each end in an on-error event,
    leaving the fourth attempt live. *)
Definition three_errors : list Event :=
  [EvConnect; EvMediaGranted 0; EvError 0; EvRetry; EvMediaGranted 2;
   EvError 1; EvRetry; EvMediaGranted 4; EvError 2; EvRetry; EvMediaGranted 6].

(** The same with the session promise rejected each time. *)
Definition three_rejections : list Event :=
  [EvConnect; EvMediaGranted 0; EvRejected 0; EvReattempt; EvMediaGranted 2;
   EvRejected 1; EvReattempt; EvMediaGranted 4; EvRejected 2; EvReattempt;
   EvMediaGranted 6].

(** An attempt that passes its guard starts by creating an audio context. *)
Definition is_attempt (c : Effect) : bool :=
  match c with EContextCreate _ => true | _ => false end.

(** The number of attempts made in a log. *)
Definition attempts (log : list Effect) : nat := length (filter is_attempt log).

(** *** Session promises *)

Definition settled (p : Promise) : bool :=
  match p with Pending _ => false | _ => true end.

(** A promise that has settled stays as it is. *)
Definition settled_stay : relation State := λ s s',
  ∀ h p, promises s !! h = Some p → settled p = true → promises s' !! h = Some p.


(** *** The command channel *)

Definition is_generate_system (fc : FunctionCall) : Prop :=
  fc_name fc = "generate_system"%string.

#[global] Instance is_generate_system_dec fc : Decision (is_generate_system fc).
Proof. unfold is_generate_system. apply _. Defined.

(** The argument handed to [onCommand] for a call. *)
Definition command_arg (fc : FunctionCall) : option string :=
  args_lookup "system_description" (fc_args fc).

(** The response sent for a call on session [h]. *)
Definition ack (h : nat) (fc : FunctionCall) : Effect :=
  ESendToolResponse h (fc_id fc) (fc_name fc) "ok, system generation started".


(** How the handler, if there is one, ends on the argument of a call. *)
Definition returns_on (oc : option (option string → Completion))
    (fc : FunctionCall) : Prop :=
  match oc with Some f => f (command_arg fc) = Returns | None => True end.


#[global] Instance Completion_eq_dec : EqDecision Completion.
Proof. solve_decision. Defined.

#[global] Instance returns_on_dec oc fc : Decision (returns_on oc fc).
Proof. destruct oc; cbn; apply _. Defined.

(** The payload gets past [new Int16Array] and [createBuffer]. *)
Definition decodes (bytes : list Z) : bool :=
  Nat.even (length bytes) && negb (length bytes / 2 =? 0)%nat.


(** A session that is open, with its promise fulfilled and installed. *)
Definition live : list Event :=
  [EvConnect; EvMediaGranted 0; EvOpen 0; EvResolved 0].

(** Sample calls and handlers. *)
Definition warp_call : FunctionCall :=
  mkFunctionCall "call-1" "generate_system" [("system_description", "warp drive")]%string.

Definition zoom_call : FunctionCall :=
  mkFunctionCall "call-2" "zoom_camera" [("factor", "2")]%string.

Definition returning : option (option string → Completion) := Some (λ _, Returns).

(** *** Playback *)




(** A 2-frame payload. *)
Definition beep : Message := mkMessage false (Some [0; 0; 0; 0]) None.


(** An open session receives one payload and is disconnected. *)
Definition ended_after_teardown : list Event :=
  live ++ [EvMessage 0 100 beep; EvDisconnect].

(** *** What a callback may call *)

(** [emits P m]: every call [m] makes satisfies [P]. *)
Definition emits (P : Effect → Prop) {A} (m : M A) : Prop :=
  ∀ s, Forall P (res_log (m s)).

(** The kinds of call a teardown makes. *)
Definition is_release (c : Effect) : bool :=
  match c with
  | ESessionClose _ | ECancelAnimationFrame _ | ENodeDisconnect _
  | ETracksStop _ | EContextClose _ | ESourceStop _ => true
  | _ => false
  end.

Definition is_send (c : Effect) : bool :=
  match c with ESendRealtimeInput _ => true | _ => false end.

(** *** Invariants of the flags *)

(** What holds of the refs while the intent is off: no session, no device
    resource, no metering loop, nothing queued. *)
Definition released (s : State) : Prop :=
  isConnected s = false ∧ isReady s = false ∧ activeSession s = None
  ∧ audioContext s = None ∧ mediaStream s = None ∧ processor s = None
  ∧ inputSource s = None ∧ rafId s = None ∧ audioQueue s = []
  ∧ isPlaying s = false.

(** Calls that start nothing: releases, and responses chained on a session
    promise earlier. *)
Definition is_quiet (c : Effect) : bool :=
  match c with
  | ESendToolResponse _ _ _ _ => true
  | _ => is_release c
  end.

(** [R] as a relation between the states before and after: an implication
    between a property of the two. *)
Definition carries (P : State → Prop) : relation State := λ s s', P s → P s'.

(** *** The caller (src/components/Interface/VoiceModule.tsx) *)

(** Line 237: the label of the header shown while connected. *)
Definition statusLabel (v : VoiceState) : string :=
  if decide (v = speaking) then "Voice Active"
  else if decide (v = listening) then "Listening"
  else "Processing".

(** Lines 195-223 and 257-273: the controls the module renders, as the
    events their [onClick] raises: the orb calls [connect] while
    [isConnected] is false, the island has [toggleMute] and [disconnect]
    otherwise. *)
Definition offered (s : State) : list Event :=
  if isConnected s then [EvToggleMute; EvDisconnect] else [EvConnect].

(** The voice state the connected view can show. *)
Definition view_ok (s : State) : Prop :=
  isConnected s = true → voiceState s = listening ∨ voiceState s = speaking.

(** [isPlaying] is off only with nothing queued. *)
Definition idle_queue (s : State) : Prop :=
  isPlaying s = false → audioQueue s = [].

(** A message that carries nothing but the turn-complete marker. *)
Definition turn_complete_only : Message := mkMessage true None None.

(** *** Independence of the mute flag *)

(** The result of a callback with the mute flag overwritten afterwards. *)
Definition with_mute {A} (b : bool) (r : Res A) : Res A :=
  mkRes (res_val r) (set_isMuted b (res_st r)) (res_log r).

(** [m] neither reads nor writes the mute flag. *)
Definition mute_indep {A} (m : M A) : Prop :=
  ∀ b s, m (set_isMuted b s) = with_mute b (m s).

(** Events whose callbacks read or write the mute flag: the toggle, a
    connect (which un-mutes), a captured block, and the level meter, whose
    reading of the flag is not part of the model. *)
Definition mute_event (e : Event) : bool :=
  match e with
  | EvToggleMute | EvConnect | EvAudioProcess | EvAnimationFrame => true
  | _ => false
  end.

(** *** The command handler of the HUD (src/components/Interface/HUD.tsx)

    Strings are taken over the code units below 256. *)

(** The white space and line terminators that [String.prototype.trim]
    strips, as far as they lie below 256: tab, line feed, vertical tab, form
    feed, carriage return, space and no-break space. *)
Definition is_white (a : Ascii.ascii) : bool :=
  existsb (Nat.eqb (Ascii.nat_of_ascii a)) [9; 10; 11; 12; 13; 32; 160]%nat.

Fixpoint trimStart (x : string) : string :=
  match x with
  | EmptyString => EmptyString
  | String a x' => if is_white a then trimStart x' else x
  end.

Fixpoint trimEnd (x : string) : string :=
  match x with
  | EmptyString => EmptyString
  | String a x' =>
      match trimEnd x' with
      | EmptyString => if is_white a then EmptyString else String a EmptyString
      | y => String a y
      end
  end.

(** [x.trim()] *)
Definition trim (x : string) : string := trimEnd (trimStart x).

(** A string as a condition: the empty string is falsy. *)
Definition truthy (x : string) : bool :=
  match x with EmptyString => false | String _ _ => true end.

(** [x || d] for an optional string [x]. *)
Definition or_else (x : option string) (d : string) : string :=
  match x with
  | Some y => if truthy y then y else d
  | None => d
  end.

(** The code unit of the comma. *)
Definition comma : Ascii.ascii := Ascii.ascii_of_nat 44.

(** [x.split(',')[0]] *)
Fixpoint upto_comma (x : string) : string :=
  match x with
  | EmptyString => EmptyString
  | String a x' => if decide (a = comma) then EmptyString else String a (upto_comma x')
  end.

(** What follows the first comma of [x], if [x.includes(',')]. *)
Fixpoint after_comma (x : string) : option string :=
  match x with
  | EmptyString => None
  | String a x' => if decide (a = comma) then Some x' else after_comma x'
  end.

(** The [useState] cells of the HUD that [triggerAnalysis] reads. *)
Record Form := mkForm
  { systemName : string; description : string; selectedImage : option string }.

(** What [triggerAnalysis] starts: the message it appends to the chat and
    the arguments it calls [analyzeSystem] with. *)
Record Analysis := mkAnalysis
  { userMessage : string; query : string; imageData : option string }.

(** Line 294. *)
Definition base64Data (img : option string) : option string :=
  match img with
  | Some i =>
      if truthy i then
        Some (match after_comma i with Some r => upto_comma r | None => i end)
      else None
  | None => None
  end.

(** Lines 276-295: [triggerAnalysis] up to its first [await]; [None] when it
    returns at the guard of line 280. *)
Definition triggerAnalysis (f : Form) (cmdName cmdDesc : option string)
    : option Analysis :=
  let finalName := or_else cmdName (systemName f) in
  let finalDesc := or_else cmdDesc (description f) in
  if negb (truthy (trim finalName))
     && negb (match selectedImage f with Some i => truthy i | None => false end)
     && negb (truthy (trim finalDesc))
  then None
  else
    let q1 := if truthy finalName then "System Name: " +:+ finalName +:+ ". " else "" in
    let q2 := if truthy finalDesc then "Technical Requirements: " +:+ finalDesc else "" in
    Some (mkAnalysis
            ("Initialize Project: " +:+ or_else (Some finalName) "Visual Analysis")
            (q1 +:+ q2)
            (base64Data (selectedImage f))).





(** A string of white space only. *)
Fixpoint white (x : string) : bool :=
  match x with
  | EmptyString => true
  | String a x' => is_white a && white x'
  end.

(** * Properties *)

(** ** Teardown *)

Lemma for_each_emit {A} (f : A → Effect) (xs : list A) (s : State) :
  for_each (λ x, emit (f x)) xs s = mkRes (Some tt) s (map f xs).
Proof.
  revert s. induction xs as [|x xs IH]; intros s; [done|].
  cbn [for_each]. unfold mbind, M_bind. cbn. by rewrite IH.
Qed.

Lemma disconnect_eq (s : State) :
  disconnect s = mkRes (Some tt) (torn_state s) (teardown_calls s).
Proof.
  destruct s as [? ? ? ? ? ? act ? ctx ms pr inp q ? ? raf ? ?].
  unfold disconnect, teardown_calls, mbind, M_bind. cbn.
  destruct act, raf, pr, inp, ms, ctx; cbn; rewrite for_each_emit; cbn;
    by rewrite ?app_nil_r.
Qed.

Lemma torn_state_torn_down s : torn_down (torn_state s).
Proof. by repeat split. Qed.

Arguments disconnect : simpl never.

(** ** Frame rules *)

Section Pres.
Context (R : relation State) `{!Reflexive R, !Transitive R}.

Lemma pres_ret {A} (a : A) : pres R (mret a).
Proof. intros s. reflexivity. Qed.

Lemma pres_skip : pres R skip.
Proof. intros s. reflexivity. Qed.

Lemma pres_get : pres R get.
Proof. intros s. reflexivity. Qed.

Lemma pres_throw {A} : pres R (@throw A).
Proof. intros s. reflexivity. Qed.

Lemma pres_emit e : pres R (emit e).
Proof. intros s. reflexivity. Qed.

Lemma pres_modify g : (∀ s, R s (g s)) → pres R (modify g).
Proof. intros H s. apply H. Qed.

Lemma pres_bind {A B} (m : M A) (f : A → M B) :
  pres R m → (∀ a, pres R (f a)) → pres R (m ≫= f).
Proof.
  intros Hm Hf s. unfold mbind, M_bind. specialize (Hm s).
  destruct (m s) as [[a|] s1 l1]; cbn in *; [|done].
  specialize (Hf a s1). destruct (f a s1) as [v s2 l2]; cbn in *.
  etrans; [exact Hm|exact Hf].
Qed.

Lemma pres_for_each {A} (body : A → M unit) xs :
  (∀ x, pres R (body x)) → pres R (for_each body xs).
Proof.
  intros H. induction xs as [|x xs IH]; cbn [for_each].
  - apply pres_skip.
  - apply pres_bind; auto.
Qed.

Lemma pres_disconnect : (∀ s, R s (torn_state s)) → pres R disconnect.
Proof. intros H s. rewrite disconnect_eq. apply H. Qed.
End Pres.

#[global] Instance keeps_refl {A} (f : State → A) : Reflexive (keeps f).
Proof. by intros s. Qed.
#[global] Instance keeps_trans {A} (f : State → A) : Transitive (keeps f).
Proof. unfold keeps. intros s1 s2 s3 ? ?. congruence. Qed.

Ltac unfold_hook :=
  unfold connect, attemptConnection_catch, onclose, onerror, retry_timeout,
    sessionPromise_reject, sessionPromise_catch, sessionPromise_resolve,
    sessionPromise_then, attemptConnection, attemptConnection_resume,
    updateVolume, toggleMute, promise_then, run_reaction, onopen,
    warmup_timeout, source_onended, schedule_audio, onaudioprocess,
    handle_functionCall, onmessage.

Create HintDb pres discriminated.

Ltac pres_leaf := intros; first [reflexivity | by intros ? ? ?].

Ltac pres_step :=
  first
    [ solve [auto with pres nocore]
    | apply pres_bind | apply pres_ret | apply pres_skip | apply pres_get
    | apply pres_throw | apply pres_emit | apply pres_for_each
    | apply pres_disconnect; [typeclasses eauto..|pres_leaf]
    | apply pres_modify; pres_leaf
    | progress intros
    | progress cbv zeta
    | case_match
    | progress unfold_hook ].

Ltac pres_tac := repeat pres_step; try typeclasses eauto.

Ltac exec :=
  unfold step, calls, handler; unfold_hook;
  unfold mbind, M_bind, mret, M_ret, skip, get, modify, emit, throw;
  cbn -[Nat.ltb]; rewrite ?disconnect_eq; cbn -[Nat.ltb].

Ltac split_if :=
  match goal with
  | |- context [if ?b then _ else _] => destruct b eqn:?
  | |- context [match ?x with Some _ => _ | None => _ end] => destruct x eqn:?
  | |- context [match ?x with Pending _ => _ | _ => _ end] => destruct x eqn:?
  end.

Ltac bool_hyps :=
  unfold MAX_RETRIES in *;
  repeat match goal with
  | H : (_ <? _)%nat = true |- _ => apply Nat.ltb_lt in H
  | H : (_ <? _)%nat = false |- _ => apply Nat.ltb_ge in H
  | H : (_ <=? _)%nat = true |- _ => apply Nat.leb_le in H
  | H : (_ <=? _)%nat = false |- _ => apply Nat.leb_gt in H
  end.

Ltac exec_all :=
  exec; repeat (split_if; cbn -[Nat.ltb]; rewrite ?disconnect_eq; cbn -[Nat.ltb]).

(** ** The last error and the retry counter *)

(** What one event can do to the last error. *)
Lemma step_error oc s e :
  error (step oc s e) = error s
  ∨ (e = EvConnect ∧ shouldBeConnected s = false ∧ error (step oc s e) = None)
  ∨ (e = EvInitFailed ∧ shouldBeConnected s = true
     ∧ error (step oc s e) = Some "System Malfunction"%string)
  ∨ ((∃ h, e = EvError h) ∧ shouldBeConnected s = true
     ∧ (MAX_RETRIES ≤ retryCount s)%nat
     ∧ error (step oc s e) = Some "System Unreachable"%string)
  ∨ ((∃ h, e = EvRejected h) ∧ shouldBeConnected s = true
     ∧ error (step oc s e) = Some "Connection Failed"%string).
Proof.
  destruct e;
    try (left; unfold step, handler;
         match goal with |- error (res_st (?m s)) = _ =>
           assert (H : pres (keeps error) m) by pres_tac; exact (H s) end).
  all: exec_all; auto.
  all: bool_hyps;
       first [ by left | by right; left | by do 2 right; left
             | do 3 right; left; split_and!; eauto; lia
             | by do 4 right; eauto 8 ].
Qed.

(** What one event can do to the retry counter. *)
Lemma step_retryCount oc s e :
  retryCount (step oc s e) = retryCount s
  ∨ (e = EvConnect ∧ shouldBeConnected s = false
     ∧ retryCount (step oc s e) = 0%nat)
  ∨ (((∃ h, e = EvError h) ∨ (∃ h, e = EvRejected h))
     ∧ shouldBeConnected s = true ∧ (retryCount s < MAX_RETRIES)%nat
     ∧ retryCount (step oc s e) = S (retryCount s)).
Proof.
  destruct e;
    try (left; unfold step, handler;
         match goal with |- retryCount (res_st (?m s)) = _ =>
           assert (H : pres (keeps retryCount) m) by pres_tac; exact (H s) end).
  all: exec_all; auto.
  all: bool_hyps; rewrite ?Nat.add_1_r;
       first [ by left | by right; left
             | do 2 right; split_and!; eauto; lia ].
Qed.

Lemma run_app oc s es1 es2 : run oc s (es1 ++ es2) = run oc (run oc s es1) es2.
Proof. revert s. induction es1 as [|e es1 IH]; intros s; cbn; [done|apply IH]. Qed.

Lemma run_invariant oc (P : State → Prop) :
  (∀ s e, P s → P (step oc s e)) → ∀ es s, P s → P (run oc s es).
Proof.
  intros Hstep es. induction es as [|e es IH]; intros s Hs; cbn; [done|].
  apply IH, Hstep, Hs.
Qed.

Lemma onerror_exhausted oc s h :
  shouldBeConnected s = true → retryCount s = MAX_RETRIES →
  step oc s (EvError h) = torn_state (set_error (Some "System Unreachable"%string) s).
Proof. intros Hi Hr. exec. rewrite Hi, Hr. cbn. by rewrite disconnect_eq. Qed.

Lemma onerror_retry oc s h :
  shouldBeConnected s = true → (retryCount s < MAX_RETRIES)%nat →
  step oc s (EvError h) = set_isReady false (set_retryCount (retryCount s + 1)%nat s)
  ∧ calls oc s (EvError h) = [ESetTimeout Retry 1000].
Proof.
  intros Hi Hr. apply Nat.ltb_lt in Hr. exec. by rewrite Hi, Hr.
Qed.

Lemma reject_exhausted oc s h rs :
  shouldBeConnected s = true → retryCount s = MAX_RETRIES →
  promises s !! h = Some (Pending rs) →
  step oc s (EvRejected h) =
    torn_state (set_error (Some "Connection Failed"%string)
                  (set_promises (<[h := Rejected]> (promises s)) s)).
Proof.
  intros Hi Hr Hp. exec. rewrite Hp. cbn -[Nat.ltb]. rewrite Hi, Hr. cbn.
  by rewrite disconnect_eq.
Qed.

Lemma reject_retry oc s h rs :
  shouldBeConnected s = true → (retryCount s < MAX_RETRIES)%nat →
  promises s !! h = Some (Pending rs) →
  step oc s (EvRejected h) =
    set_retryCount (retryCount s + 1)%nat
      (set_promises (<[h := Rejected]> (promises s)) s)
  ∧ calls oc s (EvRejected h) = [ESetTimeout Reattempt 1000].
Proof.
  intros Hi Hr Hp. apply Nat.ltb_lt in Hr. exec. rewrite Hp. cbn -[Nat.ltb].
  by rewrite Hi, Hr.
Qed.

(** Claim C2, as amended. In every run the retry counter stays at or below
    [MAX_RETRIES] = 3, and a connect that goes through resets it to 0. While
    the intent holds, each of the first three transport failures of a cycle
    (an on-error event, or the rejection of the pending session promise)
    adds one to the counter and leaves the error and the intent as they
    were. A failure that finds the counter at 3 (the fourth of the cycle)
    ends the session with a full teardown and the intent cleared; the error
    it sets is "System Unreachable" when the failure is an on-error event
    and "Connection Failed" when it is a rejected session promise. *)
Theorem retry_bound_and_exhaustion oc :
  (∀ es, (retryCount (run oc initial es) ≤ MAX_RETRIES)%nat)
  ∧ (∀ s, shouldBeConnected s = false → retryCount (step oc s EvConnect) = 0%nat)
  ∧ (∀ s h, shouldBeConnected s = true → (retryCount s < MAX_RETRIES)%nat →
       let s' := step oc s (EvError h) in
       retryCount s' = S (retryCount s) ∧ error s' = error s
       ∧ shouldBeConnected s' = true)
  ∧ (∀ s h rs, shouldBeConnected s = true → (retryCount s < MAX_RETRIES)%nat →
       promises s !! h = Some (Pending rs) →
       let s' := step oc s (EvRejected h) in
       retryCount s' = S (retryCount s) ∧ error s' = error s
       ∧ shouldBeConnected s' = true)
  ∧ (∀ s h, shouldBeConnected s = true → retryCount s = MAX_RETRIES →
       let s' := step oc s (EvError h) in
       error s' = Some "System Unreachable"%string ∧ torn_down s'
       ∧ shouldBeConnected s' = false)
  ∧ (∀ s h rs, shouldBeConnected s = true → retryCount s = MAX_RETRIES →
       promises s !! h = Some (Pending rs) →
       let s' := step oc s (EvRejected h) in
       error s' = Some "Connection Failed"%string ∧ torn_down s'
       ∧ shouldBeConnected s' = false).
Proof.
  split_and!.
  - intros es. apply run_invariant; [|cbn; lia].
    intros s e Hs. destruct (step_retryCount oc s e) as [->|[(_&_&->)|(_&_&?&->)]]; lia.
  - intros s Hi. exec. by rewrite Hi.
  - intros s h Hi Hr s'. subst s'.
    destruct (onerror_retry oc s h Hi Hr) as [-> _]. cbn.
    by rewrite Nat.add_1_r.
  - intros s h rs Hi Hr Hp s'. subst s'.
    destruct (reject_retry oc s h rs Hi Hr Hp) as [-> _]. cbn.
    by rewrite Nat.add_1_r.
  - intros s h Hi Hr s'. subst s'. rewrite onerror_exhausted by done.
    split_and!; [done|apply torn_state_torn_down|done].
  - intros s h rs Hi Hr Hp s'. subst s'. rewrite (reject_exhausted oc s h rs) by done.
    split_and!; [done|apply torn_state_torn_down|done].
Qed.

Lemma retry_bound_and_exhaustion_witness :
  let s := run None initial three_rejections in
  shouldBeConnected s = true ∧ retryCount s = MAX_RETRIES
  ∧ promises s !! 3%nat = Some (Pending [])
  ∧ error (step None s (EvRejected 3)) = Some "Connection Failed"%string
  ∧ torn_down (step None s (EvRejected 3)).
Proof.
  cbv zeta.
  assert (Hi : shouldBeConnected (run None initial three_rejections) = true) by reflexivity.
  assert (Hr : retryCount (run None initial three_rejections) = MAX_RETRIES) by reflexivity.
  assert (Hp : promises (run None initial three_rejections) !! 3%nat = Some (Pending []))
    by reflexivity.
  split_and!; [exact Hi|exact Hr|exact Hp|..];
    apply (proj2 (proj2 (proj2 (proj2 (proj2 (retry_bound_and_exhaustion None)))))
             _ 3%nat [] Hi Hr Hp).
Defined.

(** Claim C2 as stated fails when the fourth failure is a rejected session
    promise: after three rejections and the re-attempts they schedule the
    counter is 3, and the fourth rejection sets "Connection Failed", not the
    unreachable error. *)
Lemma fourth_rejection_sets_connection_failed :
  let s := run None initial three_rejections in
  shouldBeConnected s = true ∧ retryCount s = 3%nat
  ∧ error (step None s (EvRejected 3)) = Some "Connection Failed"%string
  ∧ error (step None s (EvRejected 3)) ≠ Some "System Unreachable"%string.
Proof. cbv zeta. split_and!; [reflexivity..|]. vm_compute. discriminate. Qed.

Lemma step_disconnect oc s : step oc s EvDisconnect = torn_state s.
Proof. unfold step, handler. by rewrite disconnect_eq. Qed.




(** Claim C10. [disconnect] leaves the last error as it is while it tears
    everything else down, so an error set just before stays readable; an
    event that takes the error from set to absent is a connect made with the
    intent off, and the connect that follows a disconnect clears it. *)
Theorem disconnect_keeps_error oc s e :
  error (step oc s EvDisconnect) = error s
  ∧ torn_down (step oc s EvDisconnect)
  ∧ (error (step oc s e) = None →
     error s = None ∨ (e = EvConnect ∧ shouldBeConnected s = false))
  ∧ error (run oc s [EvDisconnect; EvConnect]) = None.
Proof.
  split_and!.
  - by rewrite step_disconnect.
  - rewrite step_disconnect. apply torn_state_torn_down.
  - intros Hnone.
    destruct (step_error oc s e)
      as [H|[(?&?&_)|[(_&_&H)|[(_&_&_&H)|(_&_&H)]]]];
      [left; congruence|by right|congruence..].
  - cbn [run]. rewrite step_disconnect. by exec.
Qed.

Lemma disconnect_keeps_error_witness :
  let s := run None initial (three_errors ++ [EvError 3]) in
  error s = Some "System Unreachable"%string
  ∧ error (step None s EvDisconnect) = Some "System Unreachable"%string
  ∧ error (step None s EvConnect) = None
  ∧ (error s = None ∨ (EvConnect = EvConnect ∧ shouldBeConnected s = false)).
Proof.
  cbv zeta.
  pose proof (disconnect_keeps_error None
                (run None initial (three_errors ++ [EvError 3])) EvConnect)
    as (H1 & _ & H3 & _).
  assert (He : error (run None initial (three_errors ++ [EvError 3]))
               = Some "System Unreachable"%string) by (vm_compute; reflexivity).
  assert (Hc : error (step None (run None initial (three_errors ++ [EvError 3])) EvConnect)
               = None) by (vm_compute; reflexivity).
  split_and!; [exact He|rewrite H1; exact He|exact Hc|exact (H3 Hc)].
Defined.

(** Claim C7, as amended. In every run the last error is absent or one of
    three messages: "System Malfunction" (initialisation failed), "System
    Unreachable" (retries exhausted by an on-error event) and "Connection
    Failed" (retries exhausted by a rejected session promise). *)
Theorem error_is_one_of_three oc es :
  let e := error (run oc initial es) in
  e = None ∨ e = Some "System Malfunction"%string
  ∨ e = Some "System Unreachable"%string ∨ e = Some "Connection Failed"%string.
Proof.
  cbv zeta. apply run_invariant; [|by left].
  intros s e Hs.
  destruct (step_error oc s e)
    as [->|[(_&_&->)|[(_&_&->)|[(_&_&_&->)|(_&_&->)]]]]; auto.
Qed.

(** Claim C7 as stated fails: three different messages are reached, so no
    two messages cover every run. *)
Lemma two_messages_do_not_cover :
  ¬ ∃ m1 m2 : string, ∀ es,
      error (run None initial es) = None
      ∨ error (run None initial es) = Some m1
      ∨ error (run None initial es) = Some m2.
Proof.
  intros (m1 & m2 & H).
  pose proof (H [EvConnect; EvInitFailed]) as H1.
  pose proof (H (three_errors ++ [EvError 3])) as H2.
  pose proof (H (three_rejections ++ [EvRejected 3])) as H3.
  vm_compute in H1, H2, H3.
  assert (Hd1 : "System Malfunction"%string ≠ "System Unreachable"%string) by done.
  assert (Hd2 : "System Malfunction"%string ≠ "Connection Failed"%string) by done.
  assert (Hd3 : "System Unreachable"%string ≠ "Connection Failed"%string) by done.
  destruct H1 as [|[H1|H1]]; [done|injection H1 as <-..];
  (destruct H2 as [|[H2|H2]]; [done|injection H2 as H2..]);
  (destruct H3 as [|[H3|H3]]; [done|injection H3 as H3..]);
  subst; done.
Qed.

(** Claim C3, as amended. From a torn-down session, a connect followed by
    exactly three on-error events, each followed by its retry timer and the
    microphone grant of the new attempt, makes one initial attempt and
    exactly three reconnection attempts; the counter is then 3, no error is
    set and the intent still holds. Only a fourth on-error event sets
    "System Unreachable" and tears everything down, without a further
    attempt. *)
Theorem three_errors_leave_fourth_attempt oc s0 c0 c1 c2 c3 h1 h2 h3 h4 :
  torn_down s0 →
  let es := [EvConnect; EvMediaGranted c0;
             EvError h1; EvRetry; EvMediaGranted c1;
             EvError h2; EvRetry; EvMediaGranted c2;
             EvError h3; EvRetry; EvMediaGranted c3] in
  let s := run oc s0 es in
  attempts (run_calls oc s0 [EvConnect; EvMediaGranted c0]) = 1%nat
  ∧ attempts (run_calls oc s0 es) = (1 + 3)%nat
  ∧ retryCount s = 3%nat ∧ error s = None ∧ shouldBeConnected s = true
  ∧ error (step oc s (EvError h4)) = Some "System Unreachable"%string
  ∧ torn_down (step oc s (EvError h4))
  ∧ attempts (calls oc s (EvError h4)) = 0%nat.
Proof.
  intros Ht es s.
  destruct s0 as [b1 v1 b2 e1 b3 b4 o1 r1 o2 o3 o4 o5 q1 z1 b5 o6 ps n].
  unfold torn_down in Ht. cbn in Ht. destruct_and!. simplify_eq.
  assert (Hr : retryCount s = 3%nat) by reflexivity.
  assert (Hi : shouldBeConnected s = true) by reflexivity.
  split_and!; [reflexivity|reflexivity|exact Hr|reflexivity|exact Hi|..].
  - by rewrite onerror_exhausted.
  - rewrite onerror_exhausted by done. apply torn_state_torn_down.
  - reflexivity.
Qed.

Lemma three_errors_leave_fourth_attempt_witness :
  torn_down initial
  ∧ attempts (run_calls None initial three_errors) = 4%nat
  ∧ error (run None initial three_errors) = None
  ∧ error (step None (run None initial three_errors) (EvError 3))
    = Some "System Unreachable"%string.
Proof.
  assert (Ht : torn_down initial) by (repeat split).
  pose proof (three_errors_leave_fourth_attempt None initial 0 2 4 6 0 1 2 3 Ht)
    as (_ & H1 & _ & H3 & _ & H5 & _).
  split_and!; [exact Ht|exact H1|exact H3|exact H5].
Defined.

(** Claim C3 as stated fails: after exactly three on-error events the
    three reconnection attempts have been made, no error is set and the
    fourth attempt is live. *)
Lemma three_errors_set_no_error :
  let s := run None initial three_errors in
  attempts (run_calls None initial three_errors) = 4%nat
  ∧ retryCount s = 3%nat ∧ error s = None ∧ shouldBeConnected s = true
  ∧ audioContext s = Some 6%nat.
Proof. cbv zeta. split_and!; reflexivity. Qed.

(** ** Session promises settle once *)

Lemma for_each_run_reaction h rs s :
  for_each (run_reaction h) rs s = mkRes (Some tt) s (map (reaction_call h) rs).
Proof. apply (for_each_emit (reaction_call h)). Qed.

Lemma promise_then_eq h r s :
  promise_then h r s =
    match promises s !! h with
    | Some (Pending rs) =>
        mkRes (Some tt) (set_promises (<[h := Pending (rs ++ [r])]> (promises s)) s) []
    | Some Fulfilled => mkRes (Some tt) s [reaction_call h r]
    | _ => mkRes (Some tt) s []
    end.
Proof.
  unfold promise_then, mbind, M_bind, get. cbn.
  destruct (promises s !! h) as [[| |]|]; done.
Qed.

#[global] Instance settled_stay_refl : Reflexive settled_stay.
Proof. by intros s h p. Qed.
#[global] Instance settled_stay_trans : Transitive settled_stay.
Proof. intros s1 s2 s3 H12 H23 h p Hp Hs. eauto. Qed.

Lemma settled_stay_insert s h rs p :
  promises s !! h = Some (Pending rs) →
  settled_stay s (set_promises (<[h := p]> (promises s)) s).
Proof.
  intros Hh h' p' Hp' Hs. cbn.
  destruct (decide (h = h')) as [->|Hne]; [|by rewrite list_lookup_insert_ne].
  rewrite Hh in Hp'. by simplify_eq.
Qed.

Lemma promise_then_settled h r : pres settled_stay (promise_then h r).
Proof.
  intros s. rewrite promise_then_eq.
  destruct (promises s !! h) as [[rs| |]|] eqn:Hh; cbn; try reflexivity.
  by eapply settled_stay_insert.
Qed.

Lemma resolve_eq h s :
  sessionPromise_resolve h s =
    match promises s !! h with
    | Some (Pending rs) =>
        let s1 := set_promises (<[h := Fulfilled]> (promises s)) s in
        if shouldBeConnected s then
          mkRes (Some tt) (set_activeSession (Some h) s1)
                (map (reaction_call h) rs)
        else
          mkRes (Some tt) s1 (ESessionClose h :: map (reaction_call h) rs)
    | _ => mkRes (Some tt) s []
    end.
Proof.
  unfold sessionPromise_resolve, sessionPromise_then, mbind, M_bind, get, modify, emit.
  cbn. destruct (promises s !! h) as [[rs| |]|]; cbn; try done.
  destruct (shouldBeConnected s); cbn; by rewrite for_each_run_reaction.
Qed.

Lemma resolve_settled h : pres settled_stay (sessionPromise_resolve h).
Proof.
  intros s. rewrite resolve_eq.
  destruct (promises s !! h) as [[rs| |]|] eqn:Hh; cbn; try reflexivity.
  destruct (shouldBeConnected s); cbn;
    intros h' p' Hp' Hs; by eapply (settled_stay_insert s h rs Fulfilled).
Qed.

Lemma reject_settled h : pres settled_stay (sessionPromise_reject h).
Proof.
  intros s. unfold sessionPromise_reject, mbind, M_bind, get. cbn.
  destruct (promises s !! h) as [[rs| |]|] eqn:Hh; cbn; try reflexivity.
  pose proof (settled_stay_insert s h rs Rejected Hh) as H1.
  assert (H2 : pres settled_stay sessionPromise_catch).
  { pres_tac. }
  specialize (H2 (set_promises (<[h:=Rejected]> (promises s)) s)).
  destruct (sessionPromise_catch _) as [v s2 l2]. cbn in *. by etrans.
Qed.

Lemma resume_settled c : pres settled_stay (attemptConnection_resume c).
Proof.
  intros s. unfold attemptConnection_resume, updateVolume, mbind, M_bind, get, modify, emit.
  cbn. destruct (shouldBeConnected s); cbn; [|reflexivity].
  destruct (audioContext s); cbn; intros h p Hp Hs; cbn; by apply lookup_app_l_Some.
Qed.

#[global] Hint Resolve promise_then_settled resolve_settled reject_settled
  resume_settled : pres.

Lemma handler_settled oc e : pres settled_stay (handler oc e).
Proof. destruct e; unfold handler; pres_tac. Qed.

(** What one event can do to the installed session. *)
Lemma step_activeSession oc s e :
  activeSession (step oc s e) = activeSession s
  ∨ activeSession (step oc s e) = None
  ∨ (∃ h rs, e = EvResolved h ∧ promises s !! h = Some (Pending rs)
       ∧ shouldBeConnected s = true
       ∧ activeSession (step oc s e) = Some h
       ∧ promises (step oc s e) !! h = Some Fulfilled).
Proof.
  destruct e;
    try (left; unfold step, handler;
         match goal with |- activeSession (res_st (?m s)) = _ =>
           assert (H : pres (keeps activeSession) m) by pres_tac; exact (H s) end).
  all: try (exec_all; auto; fail).
  unfold step, handler. rewrite resolve_eq.
  destruct (promises s !! h) as [[rs| |]|] eqn:Hh; cbn; auto.
  destruct (shouldBeConnected s) eqn:Hi; cbn; auto.
  do 2 right. exists h, rs. split_and!; try done.
  apply list_lookup_insert_eq. by eapply lookup_lt_Some.
Qed.

(** In every run the installed session is one whose promise is fulfilled. *)
Lemma active_is_fulfilled oc es h :
  activeSession (run oc initial es) = Some h →
  promises (run oc initial es) !! h = Some Fulfilled.
Proof.
  revert h. apply run_invariant; [|done].
  intros s e IH h Hact.
  destruct (step_activeSession oc s e) as [H|[H|(h'&rs&_&_&_&H&Hf)]];
    rewrite H in Hact; [|done|by simplify_eq].
  apply (handler_settled oc e s); auto.
Qed.



(** The guard reads the intent as it is when the promise resolves: after a
    disconnect and a new connect, the session of the abandoned attempt is
    installed when it arrives. *)
Lemma reconnect_before_resolution_installs_old_session :
  let s := run None initial [EvConnect; EvMediaGranted 0; EvDisconnect; EvConnect] in
  shouldBeConnected s = true ∧ audioContext s = Some 2%nat
  ∧ activeSession (step None s (EvResolved 0)) = Some 0%nat.
Proof. cbv zeta. split_and!; by vm_compute. Qed.


(** ** The command channel *)

Lemma skip_bind {A} (m : M A) s : (skip ;; m) s = m s.
Proof. unfold mbind, M_bind, skip, mret, M_ret. cbn. by destruct (m s). Qed.

Lemma handle_foreign oc h fc s :
  ¬ is_generate_system fc → handle_functionCall oc h fc s = mkRes (Some tt) s [].
Proof. intros Hn. unfold handle_functionCall. by rewrite decide_False. Qed.



Lemma loop_cons oc h fc calls s :
  for_each (handle_functionCall oc h) (fc :: calls) s =
    match handle_functionCall oc h fc s with
    | mkRes None s1 l1 => mkRes None s1 l1
    | mkRes (Some _) s1 l1 =>
        match for_each (handle_functionCall oc h) calls s1 with
        | mkRes v s2 l2 => mkRes v s2 (l1 ++ l2)
        end
    end.
Proof. reflexivity. Qed.







Lemma loop_foreign oc h pre fc post s :
  ¬ is_generate_system fc →
  for_each (handle_functionCall oc h) (pre ++ fc :: post) s
  = for_each (handle_functionCall oc h) (pre ++ post) s.
Proof.
  intros Hn. revert s. induction pre as [|p pre IH]; intros s.
  - cbn [app]. rewrite loop_cons, handle_foreign by done.
    by destruct (for_each _ _ _).
  - cbn [app]. rewrite !loop_cons.
    destruct (handle_functionCall oc h p s) as [[[]|] s1 l1]; [|done].
    by rewrite IH.
Qed.

(** Claim C9. A function call whose name is not [generate_system] is
    ignored: the message is handled exactly as the same message without
    that call (same state, same calls, same outcome), and the call by itself
    changes nothing, calls no handler and sends or queues no response. *)
Theorem foreign_call_ignored oc s h now msg pre fc post :
  toolCall msg = Some (pre ++ fc :: post) →
  ¬ is_generate_system fc →
  handler oc (EvMessage h now msg) s
  = handler oc (EvMessage h now
                  (mkMessage (turnComplete msg) (audioData msg) (Some (pre ++ post)))) s
  ∧ handle_functionCall oc h fc s = mkRes (Some tt) s [].
Proof.
  intros Ht Hn. split; [|by apply handle_foreign].
  unfold handler, onmessage, mbind, M_bind, get. cbn. rewrite Ht.
  destruct (negb (shouldBeConnected s)); [done|].
  match goal with |- context [match ?m s with _ => _ end] =>
    destruct (m s) as [[[]|] s1 l1]; [|done] end.
  match goal with |- context [match ?m s1 with _ => _ end] =>
    destruct (m s1) as [[[]|] s2 l2]; [|done] end.
  by rewrite loop_foreign.
Qed.

Lemma foreign_call_ignored_witness :
  let s := run returning initial live in
  let msg := mkMessage true (Some [0; 0; 0; 0]) (Some [zoom_call; warp_call]) in
  ¬ is_generate_system zoom_call
  ∧ calls returning s (EvMessage 0 7 msg)
    = [ESourceStart (mkSource 2 7 2); ECommand (Some "warp drive"%string);
       ack 0 warp_call].
Proof.
  cbv zeta.
  assert (Hn : ¬ is_generate_system zoom_call) by (vm_compute; discriminate).
  split; [exact Hn|].
  unfold calls.
  rewrite (proj1 (foreign_call_ignored returning _ 0%nat 7
                    (mkMessage true (Some [0; 0; 0; 0]) (Some [zoom_call; warp_call]))
                    [] zoom_call [warp_call] eq_refl Hn)).
  by vm_compute.
Defined.

(** ** Playback scheduling *)












(** ** The voice state *)

(** What one event can do to the voice state. *)
Lemma step_voiceState oc s e :
  voiceState (step oc s e) = voiceState s
  ∨ voiceState (step oc s e) = idle
  ∨ (voiceState (step oc s e) = listening
     ∧ ((∃ h, e = EvOpen h ∧ shouldBeConnected s = true)
        ∨ (∃ h now msg, e = EvMessage h now msg ∧ shouldBeConnected s = true
             ∧ turnComplete msg = true ∧ isPlaying s = false)
        ∨ (∃ x now, e = EvEnded x now ∧ remove_first x (audioQueue s) = [])))
  ∨ (voiceState (step oc s e) = speaking
     ∧ ∃ h now msg bytes, e = EvMessage h now msg ∧ shouldBeConnected s = true
         ∧ audioData msg = Some bytes).
Proof.
  destruct e as [| | | | |h|h now msg| | | | | | | |x now| |];
    try (left; unfold step, handler;
         match goal with |- voiceState (res_st (?m s)) = _ =>
           assert (H : pres (keeps voiceState) m) by pres_tac; exact (H s) end).
  all: try (exec_all; auto; fail).
  - exec. destruct (shouldBeConnected s) eqn:Hi; cbn.
    + do 2 right. left. eauto 10.
    + left. rewrite promise_then_eq. by destruct (promises s !! h) as [[| |]|].
  - unfold step, handler, onmessage, mbind, M_bind, get. cbn.
    destruct (shouldBeConnected s) eqn:Hi; cbn; [|by left].
    set (tools := match toolCall msg with Some _ => _ | None => _ end).
    assert (Ht : ∀ s', voiceState (res_st (tools s')) = voiceState s').
    { intros s'. subst tools.
      assert (H : pres (keeps voiceState)
                    (match toolCall msg with
                     | Some calls => for_each (handle_functionCall oc h) calls
                     | None => skip end)) by pres_tac.
      apply H. }
    destruct (audioData msg) as [bytes|] eqn:Ha.
    + do 3 right. split; [|by eauto 10].
      match goal with |- context [match ?m s with _ => _ end] =>
        destruct (m s) as [[[]|] s1 l1] eqn:Hm1 end.
      2:{ exfalso. destruct (turnComplete msg); cbn in Hm1; [|done].
          unfold skip, mret, M_ret, modify in Hm1.
          by destruct (negb (isPlaying s)). }
      unfold schedule_audio, mbind, M_bind, get, modify, emit, throw. cbn.
      destruct (negb (Nat.even (length bytes))); cbn; [done|].
      destruct (_ =? 0)%nat; cbn; [done|].
      match goal with |- context [tools ?s'] =>
        specialize (Ht s'); destruct (tools s') as [v2 s2 l2] end.
      cbn in *. by rewrite Ht.
    + unfold skip at 2. unfold mret, M_ret.
      destruct (turnComplete msg) eqn:Htc; cbn.
      * unfold skip, mret, M_ret, modify. destruct (isPlaying s) eqn:Hp; cbn.
        -- specialize (Ht s). destruct (tools s) as [v2 s2 l2]. cbn in *. by left.
        -- specialize (Ht (set_voiceState listening s)).
           destruct (tools _) as [v2 s2 l2]. cbn in *.
           do 2 right. left. split; [done|]. right. left. eauto 10.
      * unfold skip, mret, M_ret.
        specialize (Ht s). destruct (tools s) as [v2 s2 l2]. cbn in *. by left.
  - unfold step. destruct (remove_first x (audioQueue s)) as [|z q] eqn:Hrem.
    + do 2 right. left. split; [|by eauto 10].
      unfold handler, source_onended, mbind, M_bind, get, modify, skip, mret, M_ret.
      cbn. by rewrite Hrem.
    + left. unfold handler, source_onended, mbind, M_bind, get, modify, skip, mret, M_ret.
      cbn. by rewrite Hrem.
Qed.

(** No run reaches [thinking]. *)
Lemma never_thinking oc es : voiceState (run oc initial es) ≠ thinking.
Proof.
  apply run_invariant; [|done]. intros s e Hs.
  destruct (step_voiceState oc s e) as [->|[->|[[-> _]|[-> _]]]]; done.
Qed.

(** Claim C8, at the failing input. [source.onended] does not read the
    intent: when the node stopped by a teardown reports its end afterwards,
    the torn-down session goes from [idle] to [listening] with no open
    event, stays disconnected, and its cursor takes the old clock reading. *)
Theorem completion_after_teardown_sets_listening :
  let s := run None initial ended_after_teardown in
  let s' := step None s (EvEnded (mkSource 2 100 2) 102) in
  ESourceStop (mkSource 2 100 2) ∈ run_calls None initial ended_after_teardown
  ∧ torn_down s ∧ voiceState s = idle
  ∧ voiceState s' = listening
  ∧ shouldBeConnected s' = false ∧ isConnected s' = false
  ∧ nextStartTime s' = 102.
Proof.
  cbv zeta. split_and!; try (by vm_compute).
  vm_compute. apply list_elem_of_In. cbn. tauto.
Qed.

(** * Further properties of the hook and its caller *)

(** ** Rules for the calls of a callback *)

Section Emits.
Context (P : Effect → Prop).

Lemma emits_ret {A} (a : A) : emits P (mret a).
Proof. intros s. constructor. Qed.

Lemma emits_skip : emits P skip.
Proof. intros s. constructor. Qed.

Lemma emits_get : emits P get.
Proof. intros s. constructor. Qed.

Lemma emits_throw {A} : emits P (@throw A).
Proof. intros s. constructor. Qed.

Lemma emits_modify g : emits P (modify g).
Proof. intros s. constructor. Qed.

Lemma emits_emit e : P e → emits P (emit e).
Proof. intros H s. by repeat constructor. Qed.

Lemma emits_bind {A B} (m : M A) (f : A → M B) :
  emits P m → (∀ a, emits P (f a)) → emits P (m ≫= f).
Proof.
  intros Hm Hf s. unfold mbind, M_bind. specialize (Hm s).
  destruct (m s) as [[a|] s1 l1]; cbn in *; [|done].
  specialize (Hf a s1). destruct (f a s1) as [v s2 l2]; cbn in *.
  by apply Forall_app.
Qed.

Lemma emits_for_each {A} (body : A → M unit) xs :
  (∀ x, emits P (body x)) → emits P (for_each body xs).
Proof.
  intros H. induction xs as [|x xs IH]; cbn [for_each].
  - apply emits_skip.
  - apply emits_bind; auto.
Qed.

Lemma teardown_calls_release s : Forall (λ c, is_release c = true) (teardown_calls s).
Proof.
  unfold teardown_calls, release. repeat apply Forall_app_2;
    try (case_match; by repeat constructor).
  apply Forall_map. by apply Forall_true.
Qed.

Lemma emits_disconnect : (∀ c, is_release c = true → P c) → emits P disconnect.
Proof.
  intros H s. rewrite disconnect_eq. cbn.
  eapply Forall_impl; [apply teardown_calls_release|done].
Qed.
End Emits.

Ltac emits_leaf :=
  first [ done | by intros []
        | match goal with |- context [reaction_call _ ?r] => by destruct r end ].

Ltac emits_step :=
  first
    [ apply emits_bind | apply emits_ret | apply emits_skip | apply emits_get
    | apply emits_throw | apply emits_modify | apply emits_for_each
    | apply emits_disconnect; emits_leaf
    | apply emits_emit; emits_leaf
    | progress intros
    | progress cbv zeta
    | case_match
    | progress unfold_hook ].

Ltac emits_tac := repeat emits_step.

Lemma handler_never_sends oc e :
  e ≠ EvAudioProcess → emits (λ c, is_send c = false) (handler oc e).
Proof. intros He. destruct e; try done; unfold handler; emits_tac. Qed.

(** ** Invariants of the flags *)

#[global] Instance carries_refl P : Reflexive (carries P).
Proof. intros s H. exact H. Qed.
#[global] Instance carries_trans P : Transitive (carries P).
Proof. unfold carries. intros s1 s2 s3 ? ?. auto. Qed.

Ltac pres_step_with leaf :=
  first
    [ solve [auto with pres nocore]
    | apply pres_disconnect; [typeclasses eauto..|leaf]
    | apply pres_bind | apply pres_ret | apply pres_skip | apply pres_get
    | apply pres_throw | apply pres_emit | apply pres_for_each
    | apply pres_modify; leaf
    | progress intros
    | progress cbv zeta
    | case_match
    | progress unfold_hook ].

Ltac pres_with leaf := repeat (pres_step_with leaf); try typeclasses eauto.

Ltac carry_leaf := intros; unfold carries; cbn; by auto.

Lemma run_calls_Forall oc (Inv : State → Prop) (allowed : Event → Prop)
    (P : Effect → Prop) :
  (∀ s e, Inv s → allowed e → Inv (step oc s e) ∧ Forall P (calls oc s e)) →
  ∀ es s, Inv s → Forall allowed es →
    Inv (run oc s es) ∧ Forall P (run_calls oc s es).
Proof.
  intros Hstep es. induction es as [|e es IH]; intros s Hs Hes; cbn.
  - by split.
  - apply Forall_cons in Hes as [He Hes].
    destruct (Hstep s e Hs He) as [Hs' Hc].
    destruct (IH _ Hs' Hes) as [Hr Hcs].
    split; [done|by apply Forall_app].
Qed.

(** With the intent off, an event other than a connect or the retry timer
    keeps the intent off and the refs released, and starts nothing. *)
Lemma step_off oc s e :
  shouldBeConnected s = false → released s →
  e ≠ EvConnect → e ≠ EvRetry →
  shouldBeConnected (step oc s e) = false ∧ released (step oc s e)
  ∧ Forall (λ c, is_quiet c = true) (calls oc s e).
Proof.
  intros Hi Hrel Hc Hr.
  destruct s as [b1 v1 b2 e1 b3 b4 o1 r1 o2 o3 o4 o5 q1 z1 b5 o6 ps n].
  unfold released in Hrel. cbn in Hi, Hrel. destruct_and!. simplify_eq.
  destruct e as [| | |c| |h|h now msg|h|h|h|h| | | |x now| |]; try done;
    unfold step, calls, handler; rewrite ?disconnect_eq, ?resolve_eq;
    try (by repeat split; repeat constructor).
  - unfold onopen, mbind, M_bind, get. cbn. rewrite promise_then_eq. cbn.
    destruct (ps !! h) as [[rs| |]|]; cbn; by repeat split; repeat constructor.
  - cbn. destruct (ps !! h) as [[rs| |]|]; cbn; try (by repeat split).
    split_and!; try done. constructor; [done|].
    apply Forall_map, Forall_true. by intros [].
  - unfold sessionPromise_reject, sessionPromise_catch, mbind, M_bind, get, modify,
      skip, mret, M_ret. cbn.
    destruct (ps !! h) as [[rs| |]|]; cbn; by repeat split.
  - unfold onaudioprocess, mbind, M_bind, get, skip, mret, M_ret. cbn.
    destruct b2; by repeat split.
Qed.

(** An event leaves the intent as it was, ends in a teardown, or sets it. *)
Lemma step_intent oc s e :
  shouldBeConnected (step oc s e) = shouldBeConnected s
  ∨ (∃ s0, step oc s e = torn_state s0)
  ∨ shouldBeConnected (step oc s e) = true.
Proof.
  destruct e;
    try (left; unfold step, handler;
         match goal with |- shouldBeConnected (res_st (?m s)) = _ =>
           assert (H : pres (keeps shouldBeConnected) m) by pres_tac; exact (H s) end).
  all: exec_all; eauto.
Qed.

Lemma torn_state_released s : released (torn_state s).
Proof. by repeat split. Qed.

Lemma off_released oc es :
  shouldBeConnected (run oc initial es) = false → released (run oc initial es).
Proof.
  apply (run_invariant oc (λ s, shouldBeConnected s = false → released s));
    [|by repeat split].
  intros s e IH Hoff.
  destruct (step_intent oc s e) as [Heq|[(s0 & Hs0)|Ht]]; [|..|congruence].
  - rewrite Heq in Hoff.
    destruct (step_off oc s e Hoff (IH Hoff)) as (_ & Hrel & _); [..|done].
    + intros ->. revert Heq. exec. rewrite Hoff. by cbn.
    + intros ->. revert Heq. exec. by rewrite Hoff.
  - rewrite Hs0. apply torn_state_released.
Qed.

(** Extra X1. In every run, while the intent is off there is no installed
    session, no audio context, stream or node, no metering loop and nothing
    queued: the connected and ready flags are off and nothing is playing. *)
Theorem intent_off_means_released oc es :
  shouldBeConnected (run oc initial es) = false → released (run oc initial es).
Proof. apply off_released. Qed.

Lemma intent_off_means_released_witness :
  shouldBeConnected (run None initial ended_after_teardown) = false
  ∧ released (run None initial ended_after_teardown).
Proof.
  assert (Hoff : shouldBeConnected (run None initial ended_after_teardown) = false)
    by (by vm_compute).
  exact (conj Hoff (intent_off_means_released None ended_after_teardown Hoff)).
Defined.



(** ** The capture path *)

Lemma onaudioprocess_eq s :
  onaudioprocess s =
    mkRes (Some tt) s
      (if isMuted s || negb (isReady s) || negb (shouldBeConnected s) then []
       else release ESendRealtimeInput (activeSession s)).
Proof.
  unfold onaudioprocess, mbind, M_bind, get, skip, mret, M_ret, emit. cbn.
  destruct (isMuted s || negb (isReady s) || negb (shouldBeConnected s)); [done|].
  by destruct (activeSession s).
Qed.

Lemma handler_keeps_isMuted oc e :
  e ≠ EvToggleMute → e ≠ EvConnect → pres (keeps isMuted) (handler oc e).
Proof. intros H1 H2. destruct e; try done; unfold handler; pres_tac. Qed.

Lemma handler_keeps_not_ready oc e :
  e ≠ EvWarmUp → pres (carries (λ s, isReady s = false)) (handler oc e).
Proof. intros H1. destruct e; try done; unfold handler; pres_with carry_leaf. Qed.

(** Extra X3. While muted, no captured block is forwarded: from a muted
    state, whatever happens short of a mute toggle or a connect (which un-
    mutes), the session stays muted and no realtime input is sent. *)
Theorem muted_sends_nothing oc s es :
  isMuted s = true →
  Forall (λ e, e ≠ EvToggleMute ∧ e ≠ EvConnect) es →
  isMuted (run oc s es) = true
  ∧ Forall (λ c, is_send c = false) (run_calls oc s es).
Proof.
  intros Hm Hes.
  apply (run_calls_Forall oc (λ s, isMuted s = true)
           (λ e, e ≠ EvToggleMute ∧ e ≠ EvConnect)); [|done..].
  clear. intros s e Hm [H1 H2]. split.
  - unfold step. by rewrite (handler_keeps_isMuted oc e H1 H2 s).
  - destruct e; try (apply handler_never_sends; done).
    unfold calls, handler. rewrite onaudioprocess_eq, Hm. constructor.
Qed.

Lemma muted_sends_nothing_witness :
  let s := run None initial (live ++ [EvWarmUp; EvToggleMute]) in
  isMuted s = true
  ∧ calls None (run None initial (live ++ [EvWarmUp])) EvAudioProcess
    = [ESendRealtimeInput 0]
  ∧ Forall (λ c, is_send c = false)
      (run_calls None s [EvAudioProcess; EvMessage 0 5 beep; EvAudioProcess]).
Proof.
  cbv zeta.
  assert (Hm : isMuted (run None initial (live ++ [EvWarmUp; EvToggleMute])) = true)
    by (by vm_compute).
  assert (Hs : calls None (run None initial (live ++ [EvWarmUp])) EvAudioProcess
               = [ESendRealtimeInput 0]) by (by vm_compute).
  assert (Hes : Forall (λ e, e ≠ EvToggleMute ∧ e ≠ EvConnect)
                  [EvAudioProcess; EvMessage 0 5 beep; EvAudioProcess])
    by (repeat constructor; discriminate).
  exact (conj Hm (conj Hs (proj2 (muted_sends_nothing None _ _ Hm Hes)))).
Defined.

(** Extra X4. Until a warm-up timer fires, no captured block is forwarded:
    from a state that is not ready, whatever happens short of a warm-up
    timer, the ready flag stays off and no realtime input is sent. *)
Theorem not_ready_sends_nothing oc s es :
  isReady s = false →
  Forall (λ e, e ≠ EvWarmUp) es →
  isReady (run oc s es) = false
  ∧ Forall (λ c, is_send c = false) (run_calls oc s es).
Proof.
  intros Hm Hes.
  apply (run_calls_Forall oc (λ s, isReady s = false) (λ e, e ≠ EvWarmUp)); [|done..].
  clear. intros s e Hm H1. split.
  - unfold step. by apply (handler_keeps_not_ready oc e H1 s).
  - destruct e; try (apply handler_never_sends; done).
    unfold calls, handler. rewrite onaudioprocess_eq, Hm.
    rewrite orb_true_r. constructor.
Qed.

Lemma not_ready_sends_nothing_witness :
  isReady initial = false
  ∧ Forall (λ c, is_send c = false)
      (run_calls None initial (live ++ [EvAudioProcess; EvMessage 0 5 beep])).
Proof.
  assert (Hr : isReady initial = false) by reflexivity.
  assert (Hes : Forall (λ e, e ≠ EvWarmUp)
                  (live ++ [EvAudioProcess; EvMessage 0 5 beep]))
    by (repeat constructor; discriminate).
  exact (conj Hr (proj2 (not_ready_sends_nothing None _ _ Hr Hes))).
Defined.

(** Extra X5. In every run a captured block changes nothing in the hook, and
    it is forwarded exactly when the session is not muted, ready and
    intended and a session is installed; it then goes to the installed
    session, whose promise is fulfilled. *)
Theorem captured_block_goes_to_installed_session oc es :
  let s := run oc initial es in
  step oc s EvAudioProcess = s
  ∧ (calls oc s EvAudioProcess = []
     ∨ ∃ h, calls oc s EvAudioProcess = [ESendRealtimeInput h]
          ∧ activeSession s = Some h ∧ promises s !! h = Some Fulfilled
          ∧ isMuted s = false ∧ isReady s = true ∧ shouldBeConnected s = true)
  ∧ (∀ h, isMuted s = false → isReady s = true → shouldBeConnected s = true →
          activeSession s = Some h →
          calls oc s EvAudioProcess = [ESendRealtimeInput h]).
Proof.
  cbv zeta. unfold step, calls, handler. rewrite onaudioprocess_eq. cbn.
  split_and!; [done|..].
  - destruct (isMuted _) eqn:Hm, (isReady _) eqn:Hr, (shouldBeConnected _) eqn:Hi;
      cbn; auto.
    destruct (activeSession _) as [h|] eqn:Ha; cbn; auto.
    right. exists h. split_and!; try done. by apply active_is_fulfilled.
  - intros h -> -> -> ->. done.
Qed.

Lemma captured_block_goes_to_installed_session_witness :
  let s := run None initial (live ++ [EvWarmUp]) in
  isMuted s = false ∧ isReady s = true ∧ shouldBeConnected s = true
  ∧ activeSession s = Some 0%nat
  ∧ calls None s EvAudioProcess = [ESendRealtimeInput 0].
Proof.
  cbv zeta.
  assert (H1 : isMuted (run None initial (live ++ [EvWarmUp])) = false) by (by vm_compute).
  assert (H2 : isReady (run None initial (live ++ [EvWarmUp])) = true) by (by vm_compute).
  assert (H3 : shouldBeConnected (run None initial (live ++ [EvWarmUp])) = true)
    by (by vm_compute).
  assert (H4 : activeSession (run None initial (live ++ [EvWarmUp])) = Some 0%nat)
    by (by vm_compute).
  exact (conj H1 (conj H2 (conj H3 (conj H4
           (proj2 (proj2 (captured_block_goes_to_installed_session None
                            (live ++ [EvWarmUp]))) 0%nat H1 H2 H3 H4))))).
Defined.

(** ** What the caller shows *)

Lemma onopen_view h : pres (carries view_ok) (onopen h).
Proof.
  intros s Hv. unfold onopen, mbind, M_bind, get, modify, emit. cbn.
  destruct (shouldBeConnected s); cbn.
  - intros _. by left.
  - rewrite promise_then_eq. by destruct (promises s !! h) as [[| |]|].
Qed.

Lemma handler_view oc e : pres (carries view_ok) (handler oc e).
Proof.
  destruct e; unfold handler; try apply onopen_view;
    pres_with ltac:(intros; unfold carries, view_ok; cbn; intros;
                    first [discriminate | by auto]).
Qed.

(** Extra X6. In every run, while the connected flag is on the voice state
    is [listening] or [speaking], never [idle] or [thinking]; so the header
    of the voice module never reads "Processing". *)
Theorem connected_shows_listening_or_speaking oc es :
  let s := run oc initial es in
  isConnected s = true →
  (voiceState s = listening ∨ voiceState s = speaking)
  ∧ statusLabel (voiceState s) ≠ "Processing"%string.
Proof.
  cbv zeta. intros Hc.
  assert (Hv : view_ok (run oc initial es)).
  { apply (run_invariant oc view_ok); [|done].
    intros s e Hs. by apply (handler_view oc e s). }
  split; [by apply Hv|].
  destruct (Hv Hc) as [-> | ->]; by vm_compute.
Qed.

Lemma connected_shows_listening_or_speaking_witness :
  isConnected (run None initial (live ++ [EvMessage 0 100 beep])) = true
  ∧ voiceState (run None initial (live ++ [EvMessage 0 100 beep])) = speaking
  ∧ statusLabel (voiceState (run None initial (live ++ [EvMessage 0 100 beep])))
    ≠ "Processing"%string.
Proof.
  assert (Hc : isConnected (run None initial (live ++ [EvMessage 0 100 beep])) = true)
    by (by vm_compute).
  assert (Hv : voiceState (run None initial (live ++ [EvMessage 0 100 beep])) = speaking)
    by (by vm_compute).
  exact (conj Hc (conj Hv
           (proj2 (connected_shows_listening_or_speaking None
                     (live ++ [EvMessage 0 100 beep]) Hc)))).
Defined.

(** Extra X7. While an attempt is under way (intent on, not yet connected)
    every control the voice module offers is the connect orb, and pressing
    it does nothing: the state is unchanged and nothing is called, so the
    module gives no way to cancel the attempt. *)
Theorem connecting_offers_no_cancel oc s e :
  shouldBeConnected s = true → isConnected s = false →
  e ∈ offered s →
  e = EvConnect ∧ handler oc e s = mkRes (Some tt) s [].
Proof.
  intros Hi Hc. unfold offered. rewrite Hc.
  intros ->%list_elem_of_singleton. split; [done|].
  unfold handler, connect, mbind, M_bind, get, skip, mret, M_ret. cbn. by rewrite Hi.
Qed.

Lemma connecting_offers_no_cancel_witness :
  let s := run None initial [EvConnect; EvMediaGranted 0] in
  shouldBeConnected s = true ∧ isConnected s = false
  ∧ EvConnect ∈ offered s
  ∧ handler None EvConnect s = mkRes (Some tt) s [].
Proof.
  cbv zeta.
  assert (Hi : shouldBeConnected (run None initial [EvConnect; EvMediaGranted 0]) = true)
    by (by vm_compute).
  assert (Hc : isConnected (run None initial [EvConnect; EvMediaGranted 0]) = false)
    by (by vm_compute).
  assert (He : EvConnect ∈ offered (run None initial [EvConnect; EvMediaGranted 0]))
    by (vm_compute; left).
  exact (conj Hi (conj Hc (conj He
           (proj2 (connecting_offers_no_cancel None _ EvConnect Hi Hc He))))).
Defined.

(** ** Teardown, close and the timers *)

Lemma teardown_calls_torn s : teardown_calls (torn_state s) = [].
Proof. reflexivity. Qed.

Lemma torn_state_idem s : torn_state (torn_state s) = torn_state s.
Proof. reflexivity. Qed.

(** Extra X8. A teardown closes the installed session and stops every queued
    node, and it is idempotent: a second [disconnect] right after the first
    changes nothing and releases nothing again. *)
Theorem disconnect_releases_once oc s :
  (∀ h, activeSession s = Some h → ESessionClose h ∈ calls oc s EvDisconnect)
  ∧ (∀ x, x ∈ audioQueue s → ESourceStop x ∈ calls oc s EvDisconnect)
  ∧ (∀ c, audioContext s = Some c → EContextClose c ∈ calls oc s EvDisconnect)
  ∧ (∀ c, mediaStream s = Some c → ETracksStop c ∈ calls oc s EvDisconnect)
  ∧ run oc s [EvDisconnect; EvDisconnect] = run oc s [EvDisconnect]
  ∧ run_calls oc s [EvDisconnect; EvDisconnect] = calls oc s EvDisconnect.
Proof.
  unfold calls. cbn [run run_calls handler]. rewrite !step_disconnect.
  unfold calls. cbn [handler]. rewrite !disconnect_eq. cbn [res_log].
  rewrite teardown_calls_torn, app_nil_r.
  unfold teardown_calls. split_and!; try done.
  - intros h ->. cbn. left.
  - intros x Hx. rewrite !elem_of_app. do 6 right. by apply list_elem_of_fmap_2.
  - intros c ->. rewrite !elem_of_app. do 5 right. left. cbn. left.
  - intros c ->. rewrite !elem_of_app. do 4 right. left. cbn. left.
Qed.

Lemma disconnect_releases_once_witness :
  let s := run None initial (live ++ [EvMessage 0 100 beep]) in
  activeSession s = Some 0%nat ∧ mkSource 2 100 2 ∈ audioQueue s
  ∧ ESessionClose 0 ∈ calls None s EvDisconnect
  ∧ ESourceStop (mkSource 2 100 2) ∈ calls None s EvDisconnect.
Proof.
  cbv zeta.
  assert (Ha : activeSession (run None initial (live ++ [EvMessage 0 100 beep]))
               = Some 0%nat) by (by vm_compute).
  assert (Hq : mkSource 2 100 2
               ∈ audioQueue (run None initial (live ++ [EvMessage 0 100 beep])))
    by (vm_compute; left).
  exact (conj Ha (conj Hq (conj
           (proj1 (disconnect_releases_once None _) 0%nat Ha)
           (proj1 (proj2 (disconnect_releases_once None _)) _ Hq)))).
Defined.

Lemma onclose_eq s :
  onclose s = if shouldBeConnected s
              then mkRes (Some tt) (torn_state s) (teardown_calls s)
              else mkRes (Some tt) s [].
Proof.
  unfold onclose, mbind, M_bind, get, skip, mret, M_ret. cbn.
  destruct (shouldBeConnected s); [|done]. by rewrite disconnect_eq.
Qed.

(** Extra X9. An unexpected close (intent on) tears everything down and
    clears the intent, but sets no error, leaves the retry counter alone and
    schedules no reconnection; a close with the intent off does nothing. *)
Theorem close_tears_down_without_retry oc s h :
  let s' := step oc s (EvClose h) in
  error s' = error s ∧ retryCount s' = retryCount s
  ∧ Forall (λ c, is_release c = true) (calls oc s (EvClose h))
  ∧ (shouldBeConnected s = true → torn_down s')
  ∧ (shouldBeConnected s = false → s' = s ∧ calls oc s (EvClose h) = []).
Proof.
  cbv zeta. unfold step, calls, handler. rewrite onclose_eq.
  destruct (shouldBeConnected s); cbn; split_and!; try done;
    first [apply teardown_calls_release | intros _; apply torn_state_torn_down].
Qed.

Lemma close_tears_down_without_retry_witness :
  let s := run None initial live in
  shouldBeConnected s = true ∧ torn_down (step None s (EvClose 0))
  ∧ error (step None s (EvClose 0)) = None.
Proof.
  cbv zeta.
  assert (Hi : shouldBeConnected (run None initial live) = true) by (by vm_compute).
  assert (He : error (run None initial live) = None) by (by vm_compute).
  exact (conj Hi (conj
           (proj1 (proj2 (proj2 (proj2 (close_tears_down_without_retry None _ 0%nat)))) Hi)
           (eq_trans (proj1 (close_tears_down_without_retry None _ 0%nat)) He))).
Defined.

Lemma initfailed_eq s :
  attemptConnection_catch s =
    if shouldBeConnected s
    then mkRes (Some tt) (torn_state (set_error (Some "System Malfunction"%string) s))
               (teardown_calls s)
    else mkRes (Some tt) s [].
Proof.
  unfold attemptConnection_catch, mbind, M_bind, get, modify, skip, mret, M_ret. cbn.
  destruct (shouldBeConnected s); [|done]. by rewrite disconnect_eq.
Qed.

(** Extra X10. A failure while acquiring the devices is fatal: with the
    intent on it sets "System Malfunction", tears everything down and clears
    the intent, without touching the retry counter or scheduling a retry;
    with the intent off (the user has left meanwhile) it is dropped
    silently. *)
Theorem init_failure_is_fatal oc s :
  let s' := step oc s EvInitFailed in
  retryCount s' = retryCount s
  ∧ Forall (λ c, is_release c = true) (calls oc s EvInitFailed)
  ∧ (shouldBeConnected s = true →
     error s' = Some "System Malfunction"%string ∧ torn_down s')
  ∧ (shouldBeConnected s = false → s' = s ∧ calls oc s EvInitFailed = []).
Proof.
  cbv zeta. unfold step, calls, handler. rewrite initfailed_eq.
  destruct (shouldBeConnected s); cbn; split_and!; try done;
    first [ apply teardown_calls_release
          | intros _; split; [done|apply torn_state_torn_down] ].
Qed.

Lemma init_failure_is_fatal_witness :
  let s := run None initial [EvConnect] in
  shouldBeConnected s = true
  ∧ error (step None s EvInitFailed) = Some "System Malfunction"%string
  ∧ torn_down (step None s EvInitFailed).
Proof.
  cbv zeta.
  assert (Hi : shouldBeConnected (run None initial [EvConnect]) = true)
    by (by vm_compute).
  exact (conj Hi (proj1 (proj2 (proj2 (init_failure_is_fatal None _))) Hi)).
Defined.

Lemma attemptConnection_eq s :
  attemptConnection s =
    if shouldBeConnected s
    then mkRes (Some tt) (set_audioContext (Some (nextId s)) (set_nextId (S (nextId s)) s))
               [EContextCreate (nextId s); EGetUserMedia (nextId s)]
    else mkRes (Some tt) s [].
Proof.
  unfold attemptConnection, mbind, M_bind, get, modify, emit, skip, mret, M_ret. cbn.
  by destruct (shouldBeConnected s).
Qed.

Lemma retry_timeout_eq s :
  retry_timeout s =
    mkRes (Some tt)
      (set_audioContext (Some (nextId s))
         (set_nextId (S (nextId s)) (set_shouldBeConnected true (torn_state s))))
      (teardown_calls s ++ [EContextCreate (nextId s); EGetUserMedia (nextId s)]).
Proof.
  unfold retry_timeout, mbind, M_bind, modify. rewrite disconnect_eq. cbn.
  rewrite attemptConnection_eq. by cbn.
Qed.

Lemma attempts_release log :
  Forall (λ c, is_release c = true) log → attempts log = 0%nat.
Proof.
  induction 1 as [|c log Hc _ IH]; [done|].
  unfold attempts in *. rewrite filter_cons. destruct c; try done; exact IH.
Qed.

(** Extra X11. The two backoff timers differ. The timer set by [onerror]
    does not read the intent: whatever the state when it fires (also after a
    user disconnect), it tears down, sets the intent and starts one new
    attempt, keeping the error and the retry counter. The timer set by the
    rejection handler runs [attemptConnection], which does nothing with the
    intent off. *)
Theorem retry_timer_ignores_intent oc s :
  let s' := step oc s EvRetry in
  shouldBeConnected s' = true ∧ audioContext s' = Some (nextId s)
  ∧ attempts (calls oc s EvRetry) = 1%nat
  ∧ error s' = error s ∧ retryCount s' = retryCount s
  ∧ (shouldBeConnected s = false →
     step oc s EvReattempt = s ∧ calls oc s EvReattempt = []).
Proof.
  cbv zeta. unfold step, calls, handler. rewrite retry_timeout_eq, attemptConnection_eq.
  cbn [res_st res_log]. split_and!; try done.
  - unfold attempts. rewrite filter_app, length_app.
    fold (attempts (teardown_calls s)).
    by rewrite (attempts_release _ (teardown_calls_release s)).
  - by intros ->.
Qed.

Lemma retry_timer_ignores_intent_witness :
  let s := run None initial [EvConnect; EvMediaGranted 0; EvError 0; EvDisconnect] in
  shouldBeConnected s = false
  ∧ shouldBeConnected (step None s EvRetry) = true
  ∧ step None s EvReattempt = s.
Proof.
  cbv zeta.
  assert (Hi : shouldBeConnected
                 (run None initial [EvConnect; EvMediaGranted 0; EvError 0; EvDisconnect])
               = false) by (by vm_compute).
  pose proof (retry_timer_ignores_intent None
                (run None initial [EvConnect; EvMediaGranted 0; EvError 0; EvDisconnect]))
    as (H1 & _ & _ & _ & _ & H6).
  exact (conj Hi (conj H1 (proj1 (H6 Hi)))).
Defined.

Lemma onerror_eq s :
  onerror s =
    if shouldBeConnected s then
      if (retryCount s <? MAX_RETRIES)%nat then
        mkRes (Some tt)
          (set_isReady false (set_retryCount (retryCount s + 1)%nat s))
          [ESetTimeout Retry 1000]
      else
        mkRes (Some tt)
          (torn_state (set_error (Some "System Unreachable"%string) s))
          (teardown_calls s)
    else mkRes (Some tt) s [].
Proof.
  unfold onerror, mbind, M_bind, get, modify, emit, skip, mret, M_ret.
  cbn -[Nat.ltb]. destruct (shouldBeConnected s); [|done].
  destruct (retryCount s <? MAX_RETRIES)%nat; cbn; [done|].
  by rewrite disconnect_eq.
Qed.

(** Extra X12. A close that follows a retried error does not disturb the
    retry: with the intent on and retries left, error, close, retry timer
    ends in the same state as error, retry timer, with the same calls in the
    same order: the teardown is only done earlier, by the close, and the
    retry timer then restores the intent the close had cleared. *)
Theorem close_after_error_keeps_retry oc s h h' :
  shouldBeConnected s = true → (retryCount s < MAX_RETRIES)%nat →
  run oc s [EvError h; EvClose h'; EvRetry] = run oc s [EvError h; EvRetry]
  ∧ run_calls oc s [EvError h; EvClose h'; EvRetry]
    = run_calls oc s [EvError h; EvRetry]
  ∧ shouldBeConnected (run oc s [EvError h; EvClose h']) = false
  ∧ shouldBeConnected (run oc s [EvError h; EvClose h'; EvRetry]) = true.
Proof.
  intros Hi Hr. apply Nat.ltb_lt in Hr.
  cbn [run run_calls]. unfold step, calls. cbn [handler].
  rewrite onerror_eq, Hi, Hr. cbn [res_st res_log].
  rewrite onclose_eq. cbn [shouldBeConnected set_isReady set_retryCount].
  rewrite Hi. cbn [res_st res_log]. rewrite !retry_timeout_eq.
  cbn [res_st res_log]. rewrite teardown_calls_torn, !app_nil_r.
  split_and!; try done.
Qed.

Lemma close_after_error_keeps_retry_witness :
  let s := run None initial live in
  shouldBeConnected s = true ∧ (retryCount s < MAX_RETRIES)%nat
  ∧ run None s [EvError 0; EvClose 0; EvRetry] = run None s [EvError 0; EvRetry].
Proof.
  cbv zeta.
  assert (Hi : shouldBeConnected (run None initial live) = true) by (by vm_compute).
  assert (Hr : (retryCount (run None initial live) < MAX_RETRIES)%nat)
    by (vm_compute; lia).
  exact (conj Hi (conj Hr
           (proj1 (close_after_error_keeps_retry None _ 0%nat 0%nat Hi Hr)))).
Defined.

Lemma connect_eq s :
  connect s =
    if shouldBeConnected s then mkRes (Some tt) s []
    else
      mkRes (Some tt)
        (set_audioContext (Some (nextId s))
           (set_nextId (S (nextId s))
              (set_retryCount 0%nat
                 (set_shouldBeConnected true (set_isMuted false (set_error None s))))))
        [EContextCreate (nextId s); EGetUserMedia (nextId s)].
Proof.
  unfold connect, mbind, M_bind, get, modify, skip, mret, M_ret. cbn.
  destruct (shouldBeConnected s); [done|]. by rewrite attemptConnection_eq.
Qed.

(** Extra X13. [connect] is idempotent under repeated calls: a second
    connect right after a first changes nothing and calls nothing, so
    exactly one attempt is started however often the orb is pressed; a
    connect that goes through clears the error, un-mutes, resets the retry
    counter and starts one attempt. *)
Theorem connect_is_idempotent oc s :
  run oc s [EvConnect; EvConnect] = run oc s [EvConnect]
  ∧ run_calls oc s [EvConnect; EvConnect] = calls oc s EvConnect
  ∧ shouldBeConnected (step oc s EvConnect) = true
  ∧ (shouldBeConnected s = false →
     let s' := step oc s EvConnect in
     error s' = None ∧ isMuted s' = false ∧ retryCount s' = 0%nat
     ∧ attempts (calls oc s EvConnect) = 1%nat).
Proof.
  cbn [run run_calls]. unfold step, calls. cbn [handler]. rewrite !connect_eq.
  destruct (shouldBeConnected s) eqn:Hi; cbn [res_st res_log].
  - rewrite Hi. by cbn.
  - by cbn.
Qed.

Lemma connect_is_idempotent_witness :
  let s := run None initial (three_errors ++ [EvError 3]) in
  shouldBeConnected s = false ∧ error s = Some "System Unreachable"%string
  ∧ error (step None s EvConnect) = None
  ∧ retryCount (step None s EvConnect) = 0%nat.
Proof.
  cbv zeta.
  assert (Hi : shouldBeConnected (run None initial (three_errors ++ [EvError 3])) = false)
    by (by vm_compute).
  assert (He : error (run None initial (three_errors ++ [EvError 3]))
               = Some "System Unreachable"%string) by (by vm_compute).
  pose proof (connect_is_idempotent None
                (run None initial (three_errors ++ [EvError 3]))) as (_ & _ & _ & H4).
  destruct (H4 Hi) as (H5 & _ & H6 & _).
  exact (conj Hi (conj He (conj H5 H6))).
Defined.

(** ** Playback state *)

Lemma schedule_audio_eq bytes now s :
  schedule_audio bytes now s =
    let s1 := set_isPlaying true (set_voiceState speaking s) in
    if decodes bytes then
      let x := mkSource (nextId s) (now `max` nextStartTime s)
                 (Z.of_nat (length bytes / 2)) in
      mkRes (Some tt)
        (set_audioQueue (audioQueue s ++ [x])
           (set_nextStartTime (src_end x) (set_nextId (S (nextId s)) s1)))
        [ESourceStart x]
    else mkRes None s1 [].
Proof.
  unfold schedule_audio, decodes, mbind, M_bind, get, modify, emit, throw. cbn.
  destruct (Nat.even (length bytes)); cbn; [|done].
  by destruct (_ =? 0)%nat.
Qed.

Lemma schedule_audio_idle_queue bytes now :
  pres (carries idle_queue) (schedule_audio bytes now).
Proof.
  intros s Hs. rewrite schedule_audio_eq. cbn.
  destruct (decodes bytes); cbn; by intros ?.
Qed.

Lemma onended_idle_queue x now : pres (carries idle_queue) (source_onended x now).
Proof.
  intros s Hs. unfold source_onended, mbind, M_bind, get, modify, skip, mret, M_ret.
  cbn. destruct (remove_first x (audioQueue s)) as [|y q] eqn:Hq; cbn.
  - by intros _.
  - intros Hp. cbn in Hp. specialize (Hs Hp). by rewrite Hs in Hq.
Qed.

Lemma handler_idle_queue oc e : pres (carries idle_queue) (handler oc e).
Proof.
  destruct e; unfold handler; try apply onended_idle_queue;
    repeat first
      [ apply schedule_audio_idle_queue
      | pres_step_with ltac:(intros; unfold carries, idle_queue; cbn; intros;
                             first [discriminate | by auto]) ];
    try typeclasses eauto.
Qed.

Lemma onmessage_playing_keeps_voice oc h now msg s :
  audioData msg = None → isPlaying s = true →
  voiceState (res_st (onmessage oc h now msg s)) = voiceState s.
Proof.
  intros Ha Hp. unfold onmessage, mbind, M_bind, get. cbn. rewrite Ha.
  destruct (shouldBeConnected s); cbn; [|done].
  set (tools := match toolCall msg with Some _ => _ | None => _ end).
  assert (Ht : ∀ s', voiceState (res_st (tools s')) = voiceState s').
  { intros s'. subst tools.
    assert (H : pres (keeps voiceState)
                  (match toolCall msg with
                   | Some calls => for_each (handle_functionCall oc h) calls
                   | None => skip end)) by pres_tac.
    apply H. }
  unfold skip at 2. unfold mret, M_ret.
  destruct (turnComplete msg); cbn; [rewrite Hp; cbn|];
    unfold skip, mret, M_ret; specialize (Ht s);
    destruct (tools s) as [v2 s2 l2]; by cbn in *.
Qed.

(** Extra X14. In every run, whenever [isPlaying] is off the playback queue
    is empty; so while something is queued, a message without audio (a turn-
    complete marker, tool calls) leaves the voice state as it is. *)
Theorem not_playing_means_empty_queue oc es h now msg :
  let s := run oc initial es in
  (isPlaying s = false → audioQueue s = [])
  ∧ (audioQueue s ≠ [] → audioData msg = None →
     voiceState (step oc s (EvMessage h now msg)) = voiceState s).
Proof.
  cbv zeta.
  assert (Hq : idle_queue (run oc initial es)).
  { apply (run_invariant oc idle_queue); [|done].
    intros s e Hs. by apply (handler_idle_queue oc e s). }
  split; [exact Hq|]. intros Hne Ha.
  apply onmessage_playing_keeps_voice; [done|].
  destruct (isPlaying (run oc initial es)) eqn:Hp; [done|].
  by destruct Hne; apply Hq.
Qed.

Lemma not_playing_means_empty_queue_witness :
  let s := run None initial (live ++ [EvMessage 0 100 beep]) in
  audioQueue s ≠ []
  ∧ voiceState (step None s (EvMessage 0 101 turn_complete_only)) = speaking.
Proof.
  cbv zeta.
  assert (Hne : audioQueue (run None initial (live ++ [EvMessage 0 100 beep])) ≠ [])
    by (by vm_compute).
  assert (Hv : voiceState (run None initial (live ++ [EvMessage 0 100 beep])) = speaking)
    by (by vm_compute).
  exact (conj Hne (eq_trans
           (proj2 (not_playing_means_empty_queue None _ 0%nat 101 turn_complete_only)
              Hne eq_refl) Hv)).
Defined.

(** ** An undecodable payload *)

Lemma onmessage_undecodable oc h now msg bytes s :
  shouldBeConnected s = true → audioData msg = Some bytes → decodes bytes = false →
  onmessage oc h now msg s
  = mkRes None (set_isPlaying true (set_voiceState speaking s)) [].
Proof.
  intros Hi Ha Hd. unfold onmessage, mbind, M_bind, get. cbn. rewrite Hi, Ha. cbn.
  destruct (turnComplete msg), (isPlaying s); cbn;
    rewrite schedule_audio_eq; cbn; rewrite Hd; done.
Qed.

(** Extra X15. A payload that cannot be decoded (an odd number of bytes, or
    none) ends the message callback by an exception after the voice state
    was set to [speaking] and the playing flag raised: nothing is queued or
    started, the tool calls of the same message are not handled, and since
    no completion is pending for it, turn-complete markers leave the voice
    state at [speaking]. *)
Theorem undecodable_audio_sticks_speaking oc s h now msg bytes :
  shouldBeConnected s = true → audioData msg = Some bytes → decodes bytes = false →
  let s' := step oc s (EvMessage h now msg) in
  res_val (handler oc (EvMessage h now msg) s) = None
  ∧ calls oc s (EvMessage h now msg) = []
  ∧ voiceState s' = speaking ∧ isPlaying s' = true
  ∧ audioQueue s' = audioQueue s
  ∧ (∀ h' now',
       voiceState (step oc s' (EvMessage h' now' turn_complete_only)) = speaking).
Proof.
  intros Hi Ha Hd. cbv zeta. unfold step, calls. cbn [handler].
  rewrite (onmessage_undecodable oc h now msg bytes s Hi Ha Hd). cbn [res_val res_st res_log].
  split_and!; try done.
  intros h' now'. by rewrite onmessage_playing_keeps_voice.
Qed.

Lemma undecodable_audio_sticks_speaking_witness :
  let s := run returning initial live in
  let msg := mkMessage true (Some [0; 0; 0]) (Some [warp_call]) in
  shouldBeConnected s = true ∧ decodes [0; 0; 0] = false
  ∧ calls returning s (EvMessage 0 100 msg) = []
  ∧ voiceState (step returning (step returning s (EvMessage 0 100 msg))
                  (EvMessage 0 101 turn_complete_only)) = speaking.
Proof.
  cbv zeta.
  assert (Hi : shouldBeConnected (run returning initial live) = true) by (by vm_compute).
  assert (Hd : decodes [0; 0; 0] = false) by (by vm_compute).
  pose proof (undecodable_audio_sticks_speaking returning (run returning initial live)
                0%nat 100 (mkMessage true (Some [0; 0; 0]) (Some [warp_call]))
                [0; 0; 0] Hi eq_refl Hd) as (_ & H2 & _ & _ & _ & H6).
  exact (conj Hi (conj Hd (conj H2 (H6 0%nat 101)))).
Defined.

(** ** The retry budget and the error across a session *)

Lemma step_retryCount_mono oc s e :
  e ≠ EvConnect → (retryCount s ≤ retryCount (step oc s e))%nat.
Proof.
  intros He. destruct (step_retryCount oc s e) as [->|[(?&_)|(_&_&_&->)]]; [lia|done|lia].
Qed.

(** Extra X16. The retry budget is per connect, not per outage: no event
    other than a user connect lowers the retry counter, in particular not a
    session that opens and runs; so once three failures have been retried,
    the next on-error event ends the session with "System Unreachable",
    whatever happened in between. *)
Theorem retry_budget_is_per_connect oc s es h :
  Forall (λ e, e ≠ EvConnect) es →
  (retryCount s ≤ retryCount (run oc s es))%nat
  ∧ (retryCount s = MAX_RETRIES → shouldBeConnected (run oc s es) = true →
     error (step oc (run oc s es) (EvError h)) = Some "System Unreachable"%string
     ∧ torn_down (step oc (run oc s es) (EvError h))).
Proof.
  intros Hes.
  assert (Hle : (retryCount s ≤ retryCount (run oc s es))%nat).
  { revert s. induction Hes as [|e es He _ IH]; intros s; cbn; [lia|].
    etrans; [apply (step_retryCount_mono oc s e He)|apply IH]. }
  split; [done|]. intros Hr Hi. unfold step. cbn [handler].
  rewrite onerror_eq, Hi.
  assert ((retryCount (run oc s es) <? MAX_RETRIES)%nat = false) as ->
    by (apply Nat.ltb_ge; lia).
  split; [done|apply torn_state_torn_down].
Qed.

Lemma retry_budget_is_per_connect_witness :
  let good := [EvOpen 3; EvResolved 3; EvWarmUp; EvMessage 3 100 beep;
               EvEnded (mkSource 8 100 2) 102] in
  let s := run None initial three_errors in
  retryCount s = MAX_RETRIES
  ∧ isConnected (run None s good) = true
  ∧ error (step None (run None s good) (EvError 3)) = Some "System Unreachable"%string.
Proof.
  cbv zeta.
  assert (Hr : retryCount (run None initial three_errors) = MAX_RETRIES)
    by (by vm_compute).
  assert (Hc : isConnected (run None (run None initial three_errors)
                 [EvOpen 3; EvResolved 3; EvWarmUp; EvMessage 3 100 beep;
                  EvEnded (mkSource 8 100 2) 102]) = true) by (by vm_compute).
  assert (Hi : shouldBeConnected (run None (run None initial three_errors)
                 [EvOpen 3; EvResolved 3; EvWarmUp; EvMessage 3 100 beep;
                  EvEnded (mkSource 8 100 2) 102]) = true) by (by vm_compute).
  assert (Hes : Forall (λ e, e ≠ EvConnect)
                  [EvOpen 3; EvResolved 3; EvWarmUp; EvMessage 3 100 beep;
                   EvEnded (mkSource 8 100 2) 102])
    by (repeat constructor; discriminate).
  exact (conj Hr (conj Hc
           (proj1 (proj2 (retry_budget_is_per_connect None _ _ 3%nat Hes) Hr Hi)))).
Defined.

(** Extra X17. Only a user connect clears the error: once an error message
    is set, every run without a connect ends with an error message set. *)
Theorem error_cleared_only_by_connect oc s es :
  is_Some (error s) → Forall (λ e, e ≠ EvConnect) es →
  is_Some (error (run oc s es)).
Proof.
  intros Hs Hes. revert s Hs.
  induction Hes as [|e es He _ IH]; intros s Hs; cbn; [done|].
  apply IH.
  destruct (step_error oc s e) as [->|[(?&_)|[(_&_&->)|[(_&_&_&->)|(_&_&->)]]]];
    by eauto.
Qed.

Lemma error_cleared_only_by_connect_witness :
  let s := run None initial (three_errors ++ [EvError 3]) in
  is_Some (error s)
  ∧ is_Some (error (run None s [EvClose 3; EvWarmUp; EvDisconnect])).
Proof.
  cbv zeta.
  assert (Hs : is_Some (error (run None initial (three_errors ++ [EvError 3]))))
    by (vm_compute; eauto).
  assert (Hes : Forall (λ e, e ≠ EvConnect) [EvClose 3; EvWarmUp; EvDisconnect])
    by (repeat constructor; discriminate).
  exact (conj Hs (error_cleared_only_by_connect None _ _ Hs Hes)).
Defined.

(** ** Independence of the mute flag *)

Lemma mi_ret {A} (a : A) : mute_indep (mret a).
Proof. done. Qed.

Lemma mi_skip : mute_indep skip.
Proof. done. Qed.

Lemma mi_throw {A} : mute_indep (@throw A).
Proof. done. Qed.

Lemma mi_emit e : mute_indep (emit e).
Proof. done. Qed.

Lemma mi_modify g :
  (∀ b s, g (set_isMuted b s) = set_isMuted b (g s)) → mute_indep (modify g).
Proof. intros H b s. unfold modify, with_mute. cbn. by rewrite H. Qed.

Lemma mi_bind {A B} (m : M A) (f : A → M B) :
  mute_indep m → (∀ a, mute_indep (f a)) → mute_indep (m ≫= f).
Proof.
  intros Hm Hf b s. unfold mbind, M_bind. rewrite Hm.
  destruct (m s) as [[a|] s1 l1]; cbn; [|done].
  rewrite Hf. by destruct (f a s1).
Qed.

(** A callback that reads the state may use every field but the flag. *)
Lemma mi_get_bind {B} (f : State → M B) :
  (∀ b s0 s, f (set_isMuted b s0) s = f s0 s) →
  (∀ s0, mute_indep (f s0)) → mute_indep (get ≫= f).
Proof.
  intros H1 H2 b s. unfold mbind, M_bind, get. cbn.
  rewrite H1, H2. by destruct (f s s).
Qed.

Lemma mi_for_each {A} (body : A → M unit) xs :
  (∀ x, mute_indep (body x)) → mute_indep (for_each body xs).
Proof.
  intros H. induction xs as [|x xs IH]; cbn [for_each].
  - apply mi_skip.
  - apply mi_bind; auto.
Qed.

Lemma mi_disconnect : mute_indep disconnect.
Proof. intros b s. by rewrite !disconnect_eq. Qed.

Ltac mi_step :=
  first
    [ apply mi_disconnect
    | apply mi_get_bind; [intros; reflexivity|]
    | apply mi_bind | apply mi_ret | apply mi_skip | apply mi_throw
    | apply mi_emit | apply mi_for_each
    | apply mi_modify; intros; reflexivity
    | progress intros
    | progress cbv zeta
    | case_match
    | progress unfold_hook ].

Ltac mi_tac := repeat mi_step.

Lemma handler_mute_indep oc e : mute_event e = false → mute_indep (handler oc e).
Proof. intros He. destruct e; try done; unfold handler; mi_tac. Qed.

(** Extra X18. The mute flag matters to nothing but the forwarding of
    captured blocks: over events other than the toggle, a connect, a
    captured block and a metering frame, a run from a state with the flag
    overwritten makes the same calls and ends in the same state with the
    flag overwritten. *)
Theorem mute_only_gates_capture oc b s es :
  Forall (λ e, mute_event e = false) es →
  run oc (set_isMuted b s) es = set_isMuted b (run oc s es)
  ∧ run_calls oc (set_isMuted b s) es = run_calls oc s es.
Proof.
  intros Hes. revert s. induction Hes as [|e es He _ IH]; intros s; cbn; [done|].
  unfold step, calls. rewrite (handler_mute_indep oc e He b s). cbn.
  destruct (IH (res_st (handler oc e s))) as [-> ->]. done.
Qed.

Lemma mute_only_gates_capture_witness :
  let es := [EvMessage 0 100 beep; EvError 0; EvRetry] in
  let s := run None initial (live ++ [EvWarmUp]) in
  run_calls None (set_isMuted true s) es = run_calls None s es
  ∧ calls None (set_isMuted true s) EvAudioProcess = []
  ∧ calls None s EvAudioProcess = [ESendRealtimeInput 0].
Proof.
  cbv zeta.
  assert (Hes : Forall (λ e, mute_event e = false)
                  [EvMessage 0 100 beep; EvError 0; EvRetry])
    by (by repeat constructor).
  assert (H1 : calls None (set_isMuted true (run None initial (live ++ [EvWarmUp])))
                 EvAudioProcess = []) by (by vm_compute).
  assert (H2 : calls None (run None initial (live ++ [EvWarmUp])) EvAudioProcess
               = [ESendRealtimeInput 0]) by (by vm_compute).
  exact (conj (proj2 (mute_only_gates_capture None true _ _ Hes)) (conj H1 H2)).
Defined.

(** ** The command handler of the HUD *)

Lemma trimStart_empty x : trimStart x = EmptyString ↔ white x = true.
Proof.
  induction x as [|a x IH]; cbn -[is_white]; [by split|].
  destruct (is_white a); cbn -[is_white]; [exact IH|]. split; discriminate.
Qed.

Lemma trimEnd_empty x : trimEnd x = EmptyString ↔ white x = true.
Proof.
  induction x as [|a x IH]; cbn -[is_white]; [by split|].
  destruct (trimEnd x) as [|b y].
  - assert (Hw : white x = true) by (by apply IH). rewrite Hw, andb_true_r.
    destruct (is_white a); split; (done || discriminate).
  - split; [discriminate|]. intros [_ H]%andb_prop.
    apply IH in H. discriminate.
Qed.

Lemma white_trimStart x : white (trimStart x) = white x.
Proof.
  induction x as [|a x IH]; cbn -[is_white]; [done|].
  destruct (is_white a) eqn:Ha; cbn -[is_white]; [done|]. by rewrite Ha.
Qed.

Lemma trim_falsy x : truthy (trim x) = negb (white x).
Proof.
  unfold trim. destruct (white x) eqn:Hw.
  - rewrite <- white_trimStart in Hw. apply trimEnd_empty in Hw. by rewrite Hw.
  - destruct (trimEnd (trimStart x)) eqn:Ht; [|done].
    apply trimEnd_empty in Ht. rewrite white_trimStart in Ht. congruence.
Qed.

(** Extra X19. [triggerAnalysis] returns at its guard, starting nothing,
    exactly when no image is selected and both the name and the description
    it would use (the argument when it is a non-empty string, the form's
    field otherwise) consist of white space only; when it goes on, its query
    is empty exactly when both are empty, and the image data it passes on
    holds no comma. *)
Theorem triggerAnalysis_guard f cmdName cmdDesc :
  let finalName := or_else cmdName (systemName f) in
  let finalDesc := or_else cmdDesc (description f) in
  (triggerAnalysis f cmdName cmdDesc = None
   ↔ white finalName = true ∧ white finalDesc = true
     ∧ (selectedImage f = None ∨ selectedImage f = Some EmptyString))
  ∧ (∀ a, triggerAnalysis f cmdName cmdDesc = Some a →
       (query a = EmptyString ↔ finalName = EmptyString ∧ finalDesc = EmptyString)
       ∧ (∀ d, imageData a = Some d → after_comma d = None)).
Proof.
  cbv zeta. unfold triggerAnalysis. rewrite !trim_falsy, !negb_involutive.
  set (n := or_else cmdName (systemName f)).
  set (d := or_else cmdDesc (description f)).
  assert (Himg : negb (match selectedImage f with Some i => truthy i | None => false end)
                 = true ↔ selectedImage f = None ∨ selectedImage f = Some EmptyString).
  { destruct (selectedImage f) as [[|c i]|]; cbn; split; auto.
    - discriminate.
    - intros [?|?]; discriminate. }
  split.
  - destruct (white n), (white d),
      (negb (match selectedImage f with Some i => truthy i | None => false end));
      cbn; split; try done; try (intros (? & ? & ?); try done).
    + intros _. split_and!; try done. by apply Himg.
    + apply Himg in H1. discriminate.
  - intros a Ha. case_match; [done|]. simplify_eq. cbn. split.
    + destruct n, d; cbn; split; try done; try discriminate; by intros [? ?].
    + unfold base64Data. destruct (selectedImage f) as [i|]; [|done].
      destruct (truthy i); [|done]. intros d' [= <-].
      destruct (after_comma i) as [r|] eqn:Hr; [|done].
      clear. induction r as [|c r IH]; cbn; [done|].
      destruct (decide (c = comma)) as [->|Hc]; cbn; [done|].
      by rewrite decide_False.
Qed.

Lemma triggerAnalysis_guard_witness :
  let f := mkForm "  " "" None in
  triggerAnalysis f (Some "") None = None
  ∧ triggerAnalysis (mkForm "" "" (Some "data:image/png;base64,AAAA")) None None
    = Some (mkAnalysis "Initialize Project: Visual Analysis" "" (Some "AAAA")).
Proof.
  cbv zeta.
  assert (H1 : white (or_else (Some EmptyString) (systemName (mkForm "  " "" None))) = true)
    by (by vm_compute).
  assert (H2 : white (or_else None (description (mkForm "  " "" None))) = true)
    by (by vm_compute).
  assert (H3 : triggerAnalysis (mkForm "" "" (Some "data:image/png;base64,AAAA")) None None
               = Some (mkAnalysis "Initialize Project: Visual Analysis" "" (Some "AAAA")))
    by (by vm_compute).
  exact (conj
           (proj2 (proj1 (triggerAnalysis_guard (mkForm "  " "" None) (Some EmptyString) None))
              (conj H1 (conj H2 (or_introl eq_refl))))
           H3).
Defined.

Lemma white_truthy d : white d = false → truthy d = true.
Proof. by destruct d. Qed.

(** Extra X20. A spoken description that is not blank always starts an
    analysis, and it is used as the name of the system: the chat message and
    the query name it, the form's name field plays no part, while the form's
    description field and image are sent along as they are. *)
Theorem spoken_description_names_the_system f d :
  white d = false →
  ∃ a, triggerAnalysis f (Some d) None = Some a
    ∧ userMessage a = "Initialize Project: " +:+ d
    ∧ query a = ("System Name: " +:+ d +:+ ". ")
                +:+ (if truthy (description f)
                     then "Technical Requirements: " +:+ description f else "")
    ∧ imageData a = base64Data (selectedImage f)
    ∧ ∀ n, triggerAnalysis (mkForm n (description f) (selectedImage f)) (Some d) None
           = Some a.
Proof.
  intros Hd. pose proof (white_truthy d Hd) as Ht.
  unfold triggerAnalysis. cbn [or_else systemName description selectedImage].
  rewrite Ht, trim_falsy, Hd. cbn [negb andb or_else]. rewrite Ht.
  eexists. split; [done|]. cbn [userMessage query imageData]. by split_and!.
Qed.

Lemma spoken_description_names_the_system_witness :
  white "warp drive" = false
  ∧ ∃ a, triggerAnalysis (mkForm "old name" "titanium hull" None)
           (Some "warp drive"%string) None = Some a
       ∧ query a
         = "System Name: warp drive. Technical Requirements: titanium hull"%string.
Proof.
  assert (Hd : white "warp drive" = false) by (by vm_compute).
  assert (Hq : ("System Name: " +:+ "warp drive" +:+ ". ")
               +:+ (if truthy (description (mkForm "old name" "titanium hull" None))
                    then "Technical Requirements: "
                         +:+ description (mkForm "old name" "titanium hull" None)
                    else "")
               = "System Name: warp drive. Technical Requirements: titanium hull"%string)
    by (by vm_compute).
  destruct (spoken_description_names_the_system
              (mkForm "old name" "titanium hull" None) "warp drive" Hd)
    as (a & H1 & _ & H3 & _).
  exact (conj Hd (ex_intro _ a (conj H1 (eq_trans H3 Hq)))).
Defined.





